(** * RedditVideoMakerBot: speech assembly and background segment selection

    A shallow embedding of [src/video_creation/background.py]
    ([get_start_and_end_times], [chop_background]) and of
    [src/TTS/engine_wrapper.py] ([TTSEngine.add_periods], [run],
    [split_post], [call_tts]), followed by the properties of the
    specification stated over it.

    Conventions of the embedding.
    - Python [int] is [Z]; durations that Python holds as [float] are exact
      rationals [Q] (rounding of floating point is not modelled) and are
      compared with [==].  The properties of the running total are stated
      as the additions and the one subtraction that the code makes, in its
      order; none says that subtracting a clip gives back the total from
      before it was added, which rounding does not grant.
    - Python [str] is [string]; the text is taken to be ASCII, which is the
      range on which [\w], [\b] and [str.isspace] are modelled.
    - [raise] is the [Raise] constructor of [result].
    - [random.randint] is the list of its equally likely outcomes. *)

From Stdlib Require Import ZArith QArith Qminmax List FinFun Bool String Ascii Lia Lqa.
Import ListNotations.

(** ** Exceptions and random choice *)

Inductive exn : Type :=
| IndexError
| TypeError
| SourceTooShort      (* "Background source (...) is too short for required video length" *)
| NoValidTimeRange    (* "Unable to create valid time range from clip ..." *)
| VideoTooShort       (* ValueError of the video path of chop_background *)
| GeneratedFileInvalid (* "Generated video file is empty or doesn't exist" *)
| AllVideoMethodsFailed
| CalledProcessError.

Inductive result (A : Type) : Type :=
| Ok (a : A)
| Raise (e : exn).

Arguments Ok {A} a.
Arguments Raise {A} e.

(** A computation that may draw a random number: the list of its outcomes,
    every entry being equally likely.  The code makes at most one draw on
    every path, so counting entries gives the probability of an outcome. *)
Definition dist (A : Type) : Type := list A.

Definition dret {A} (a : A) : dist A := [a].
Definition dbind {A B} (m : dist A) (f : A -> dist B) : dist B := flat_map f m.

(** [random.randint(a, b)]: uniform on the integers [a .. b], both ends
    included.  The source calls it only with [a <= b]. *)
Definition randint (a b : Z) : dist Z :=
  map (fun k => (a + Z.of_nat k)%Z) (seq 0 (Z.to_nat (b - a + 1))).

(** Python's [int(x)] on a float: truncation towards zero. *)
Definition int (x : Q) : Z := Z.quot (Qnum x) (Zpos (Qden x)).

Module Background.

Open Scope Z_scope.

(** Lines 59-61: a non-positive requested length is replaced by 1. *)
Definition clamp_video_length (video_length : Z) : Z :=
  if video_length <=? 0 then 1 else video_length.

(** Line 74. *)
Definition margin (length_of_clip : Z) : Z := Z.min 2 (length_of_clip / 10).

(** Lines 75-80, [video_length] being the value after the clamp. *)
Definition max_start_time (video_length length_of_clip : Z) : Z :=
  let m := length_of_clip - video_length - margin length_of_clip in
  if m <? 0 then Z.max 0 (length_of_clip - video_length) else m.

(** Lines 89-107: what the function does with the chosen [start_time]. *)
Definition window_from_start (video_length length_of_clip start_time : Z)
  : result (Z * Z) :=
  let end_time := start_time + video_length in
  let '(start_time, end_time) :=
    if end_time >? length_of_clip
    then (Z.max 0 (length_of_clip - video_length), length_of_clip)
    else (start_time, end_time) in
  if end_time <=? start_time then
    let start_time := 0 in
    let end_time := Z.min video_length length_of_clip in
    if end_time <=? start_time then Raise NoValidTimeRange
    else Ok (start_time, end_time)
  else Ok (start_time, end_time).

(** [get_start_and_end_times(video_length, length_of_clip)], lines 42-107. *)
Definition get_start_and_end_times (video_length length_of_clip : Q)
  : dist (result (Z * Z)) :=
  let video_length := int video_length in
  let length_of_clip := int length_of_clip in
  let video_length := clamp_video_length video_length in
  if length_of_clip <=? video_length then
    if length_of_clip >? 0 then dret (Ok (0, length_of_clip))
    else dret (Raise SourceTooShort)
  else
    let max_start_time := max_start_time video_length length_of_clip in
    dbind (if max_start_time <=? 0 then dret 0 else randint 0 max_start_time)
          (fun start_time =>
             dret (window_from_start video_length length_of_clip start_time)).

(** *** The external media tools, as [chop_background] sees them *)

(** The fast ffmpeg extraction of the background audio: it succeeds and
    leaves a usable file, or exits with an error
    ([subprocess.CalledProcessError]), or returns normally but leaves a
    missing or empty file. *)
Inductive extract_outcome : Type :=
| ExtractOk
| ExtractProcessError
| ExtractEmptyFile.

Record media_tools : Type := {
  (* ffprobe on the audio source: [None] when the call or [float] raises *)
  probe_audio : option Q;
  (* ffmpeg -ss start -t video_length on the audio source *)
  extract_audio : Z -> extract_outcome;
  (* ffmpeg -f lavfi anullsrc -t video_length, run with check=True *)
  silent_audio_ok : bool;
  probe_video : option Q;
  (* the fast re-encode; [ExtractEmptyFile] also stands for an output whose
     reported duration is not positive *)
  extract_video : Z -> extract_outcome;
  (* moviepy's ffmpeg_extract_subclip(start, end) *)
  moviepy_extract_video : Z -> Z -> bool
}.

Inductive audio_file : Type :=
| NoAudioFile
| ExtractedAudio (start duration : Z)
| SilentAudio (duration : Z).

Inductive video_file : Type :=
| ExtractedVideo (start duration : Z)
| MoviePyVideo (start stop : Z).

Section ChopBackground.

Variable tools : media_tools.
(* settings.config["settings"]["background"]["background_audio_volume"] *)
Variable background_audio_volume : Q.

(** The silent placeholder of lines 207-210, 241-244 and 250-253. *)
Definition create_silent_audio (video_length : Z) : result audio_file :=
  if silent_audio_ok tools then Ok (SilentAudio video_length)
  else Raise CalledProcessError.

(** The handler of the outer [except Exception] (lines 247-254): one more
    attempt at the silent placeholder, whose failure leaves the function. *)
Definition audio_final_fallback (video_length : Z) : result audio_file :=
  create_silent_audio video_length.

Definition or_final_fallback (video_length : Z) (r : result audio_file)
  : result audio_file :=
  match r with
  | Ok f => Ok f
  | Raise _ => audio_final_fallback video_length
  end.

(** Lines 182-254 of [chop_background]. *)
Definition chop_background_audio (video_length : Z) : dist (result audio_file) :=
  if Qeq_bool background_audio_volume 0 then dret (Ok NoAudioFile)
  else
    match probe_audio tools with
    | None => dret (audio_final_fallback video_length)
    | Some audio_duration =>
        if Qle_bool audio_duration (inject_Z (video_length + 2)) then
          dret (or_final_fallback video_length (create_silent_audio video_length))
        else
          dbind (get_start_and_end_times (inject_Z video_length)
                                         (inject_Z (int audio_duration)))
            (fun times =>
               match times with
               | Raise _ => dret (audio_final_fallback video_length)
               | Ok (start_time_audio, _) =>
                   match extract_audio tools start_time_audio with
                   | ExtractOk =>
                       dret (Ok (ExtractedAudio start_time_audio video_length))
                   | ExtractProcessError =>
                       dret (or_final_fallback video_length
                               (create_silent_audio video_length))
                   | ExtractEmptyFile =>
                       dret (audio_final_fallback video_length)
                   end
               end)
    end.

(** Lines 256-330 of [chop_background]: every failure is re-raised. *)
Definition chop_background_video (video_length : Z) : dist (result video_file) :=
  match probe_video tools with
  | None => dret (Raise CalledProcessError)
  | Some video_duration =>
      if Qle_bool video_duration (inject_Z (video_length + 2)) then
        dret (Raise VideoTooShort)
      else
        dbind (get_start_and_end_times (inject_Z video_length)
                                       (inject_Z (int video_duration)))
          (fun times =>
             match times with
             | Raise e => dret (Raise e)
             | Ok (start_time_video, _) =>
                 match extract_video tools start_time_video with
                 | ExtractOk =>
                     dret (Ok (ExtractedVideo start_time_video video_length))
                 | ExtractProcessError =>
                     if moviepy_extract_video tools start_time_video
                          (start_time_video + video_length)
                     then dret (Ok (MoviePyVideo start_time_video
                                      (start_time_video + video_length)))
                     else dret (Raise AllVideoMethodsFailed)
                 | ExtractEmptyFile => dret (Raise GeneratedFileInvalid)
                 end
             end)
  end.

(** [chop_background]: the audio path, then the video path. *)
Definition chop_background (video_length : Z)
  : dist (result (audio_file * video_file)) :=
  dbind (chop_background_audio video_length)
    (fun a =>
       match a with
       | Raise e => dret (Raise e)
       | Ok af =>
           dbind (chop_background_video video_length)
             (fun v =>
                match v with
                | Raise e => dret (Raise e)
                | Ok vf => dret (Ok (af, vf))
                end)
       end).

End ChopBackground.

End Background.

(** ** The fragments of Python's [str] and [re] that the source uses *)

Module Py.

Open Scope string_scope.

Definition in_range (lo hi c : ascii) : bool :=
  (N_of_ascii lo <=? N_of_ascii c)%N && (N_of_ascii c <=? N_of_ascii hi)%N.

Definition is_alpha (c : ascii) : bool :=
  in_range "a" "z" c || in_range "A" "Z" c.

Definition is_digit (c : ascii) : bool := in_range "0" "9" c.

(** [\w] on ASCII text. *)
Definition is_word (c : ascii) : bool :=
  is_alpha c || is_digit c || Ascii.eqb c "_".

(** [str.isspace] of one character, on ASCII text: tab, line feed, vertical
    tab, form feed, carriage return, the separators 28-31 and the blank. *)
Definition is_space (c : ascii) : bool :=
  in_range "009" "013" c || in_range "028" "031" c || Ascii.eqb c " ".

Definition newline : ascii := "010".

(** *** Regular expressions, matched as [re] does: by backtracking,
    alternatives tried left to right, repetitions greedy. *)
Inductive regex : Type :=
| Eps
| Lit (c : ascii)
| Class (p : ascii -> bool)
| Cat (r1 r2 : regex)
| Or (r1 r2 : regex)
| Repeat (r : regex) (lo hi : nat)   (* r{lo,hi} *)
| Many (r : regex) (lo : nat)        (* r{lo,}: [*] is [Many r 0], [+] is [Many r 1] *)
| Boundary                           (* \b *)
| Dollar.                            (* $ without re.MULTILINE *)

Fixpoint Str (s : string) : regex :=
  match s with
  | EmptyString => Eps
  | String c s' => Cat (Lit c) (Str s')
  end.

(** [.] without re.DOTALL. *)
Definition Dot : regex := Class (fun c => negb (Ascii.eqb c newline)).

Definition word_before (prev : option ascii) : bool :=
  match prev with Some c => is_word c | None => false end.

Definition word_after (s : string) : bool :=
  match s with String c _ => is_word c | EmptyString => false end.

(** [rmatch r prev n s k]: match [r] at the head of [s], the character
    before it being [prev] and [n] characters of the attempt being consumed
    already; [k] is what remains to be matched.  The first success in the
    order of the backtracking search is returned. *)
Fixpoint rmatch {A : Type} (r : regex) (prev : option ascii) (n : nat) (s : string)
    (k : option ascii -> nat -> string -> option A) {struct r} : option A :=
  match r with
  | Eps => k prev n s
  | Lit c =>
      match s with
      | String d s' => if Ascii.eqb c d then k (Some d) (S n) s' else None
      | EmptyString => None
      end
  | Class p =>
      match s with
      | String d s' => if p d then k (Some d) (S n) s' else None
      | EmptyString => None
      end
  | Cat r1 r2 =>
      rmatch r1 prev n s (fun prev' n' s' => rmatch r2 prev' n' s' k)
  | Or r1 r2 =>
      match rmatch r1 prev n s k with
      | Some x => Some x
      | None => rmatch r2 prev n s k
      end
  | Repeat r lo hi =>
      (fix rep (lo hi : nat) (prev : option ascii) (n : nat) (s : string)
           {struct hi} : option A :=
         let stop := if Nat.eqb lo 0 then k prev n s else None in
         match hi with
         | O => stop
         | S hi' =>
             match rmatch r prev n s
                     (fun prev' n' s' => rep (Nat.pred lo) hi' prev' n' s') with
             | Some x => Some x
             | None => stop
             end
         end) lo hi prev n s
  | Many r lo =>
      (fix many (fuel lo : nat) (prev : option ascii) (n : nat) (s : string)
           {struct fuel} : option A :=
         let stop := if Nat.eqb lo 0 then k prev n s else None in
         match fuel with
         | O => stop
         | S fuel' =>
             match rmatch r prev n s
                     (fun prev' n' s' =>
                        if Nat.ltb n n' then many fuel' (Nat.pred lo) prev' n' s'
                        else None) with
             | Some x => Some x
             | None => stop
             end
         end) (S (String.length s)) lo prev n s
  | Boundary =>
      if xorb (word_before prev) (word_after s) then k prev n s else None
  | Dollar =>
      match s with
      | EmptyString => k prev n s
      | String c EmptyString => if Ascii.eqb c newline then k prev n s else None
      | _ => None
      end
  end.

(** The length of the match of [r] that starts at the head of [s]. *)
Definition match_here (r : regex) (prev : option ascii) (s : string) : option nat :=
  rmatch r prev 0 s (fun _ n _ => Some n).

Fixpoint take (n : nat) (s : string) : string :=
  match n, s with
  | S n', String c s' => String c (take n' s')
  | _, _ => EmptyString
  end.

(** [re.sub(r, repl, s)] for a literal [repl]: the matches are found from
    left to right and do not overlap; [skip] counts the characters of the
    current match that are still to be passed over. *)
Fixpoint sub_from (r : regex) (repl : string) (prev : option ascii) (s : string)
    (skip : nat) {struct s} : string :=
  match s with
  | EmptyString =>
      match skip, match_here r prev EmptyString with
      | O, Some _ => repl
      | _, _ => EmptyString
      end
  | String c s' =>
      match skip with
      | S skip' => sub_from r repl (Some c) s' skip'
      | O =>
          match match_here r prev s with
          | Some (S m) => repl ++ sub_from r repl (Some c) s' m
          | Some O => repl ++ String c (sub_from r repl (Some c) s' 0)
          | None => String c (sub_from r repl (Some c) s' 0)
          end
      end
  end.

Definition sub (r : regex) (repl s : string) : string :=
  sub_from r repl None s 0.

(** [[x.group() for x in re.finditer(r, s)]]. *)
Fixpoint finditer_from (r : regex) (prev : option ascii) (s : string) (skip : nat)
    {struct s} : list string :=
  match s with
  | EmptyString =>
      match skip, match_here r prev EmptyString with
      | O, Some _ => [EmptyString]
      | _, _ => []
      end
  | String c s' =>
      match skip with
      | S skip' => finditer_from r (Some c) s' skip'
      | O =>
          match match_here r prev s with
          | Some (S m) => take (S m) s :: finditer_from r (Some c) s' m
          | Some O => EmptyString :: finditer_from r (Some c) s' 0
          | None => finditer_from r (Some c) s' 0
          end
      end
  end.

Definition finditer (r : regex) (s : string) : list string :=
  finditer_from r None s 0.

(** [s.replace(old, new)] for a non-empty [old]. *)
Fixpoint replace_from (old new s : string) (skip : nat) {struct s} : string :=
  match s with
  | EmptyString => EmptyString
  | String c s' =>
      match skip with
      | S skip' => replace_from old new s' skip'
      | O =>
          if String.prefix old s
          then new ++ replace_from old new s' (Nat.pred (String.length old))
          else String c (replace_from old new s' 0)
      end
  end.

Definition replace (old new s : string) : string := replace_from old new s 0.

(** [s[-1]]. *)
Fixpoint last_char (s : string) : option ascii :=
  match s with
  | EmptyString => None
  | String c EmptyString => Some c
  | String _ s' => last_char s'
  end.

Fixpoint lstrip (s : string) : string :=
  match s with
  | String c s' => if is_space c then lstrip s' else s
  | EmptyString => EmptyString
  end.

Fixpoint rstrip (s : string) : string :=
  match s with
  | String c s' =>
      match rstrip s' with
      | EmptyString => if is_space c then EmptyString else String c EmptyString
      | t => String c t
      end
  | EmptyString => EmptyString
  end.

Definition strip (s : string) : string := rstrip (lstrip s).

Fixpoint all_space (s : string) : bool :=
  match s with
  | String c s' => is_space c && all_space s'
  | EmptyString => true
  end.

(** [s.isspace()]. *)
Definition isspace (s : string) : bool :=
  match s with EmptyString => false | _ => all_space s end.

(** [len(s.split())]: the number of maximal runs of non-blank characters. *)
Fixpoint count_words (in_word : bool) (s : string) : nat :=
  match s with
  | EmptyString => O
  | String c s' =>
      if is_space c then count_words false s'
      else if in_word then count_words true s'
      else S (count_words true s')
  end.

Definition word_count (s : string) : nat := count_words false s.

End Py.

(** ** [TTSEngine] of [src/TTS/engine_wrapper.py] *)

Module TTS.

Import Py.
Open Scope string_scope.

(** *** The document and the configuration *)

Record comment : Type := { comment_body : string }.

(** [reddit_object["thread_post"]]: one string (story mode, method 0) or a
    list of strings (method 1). *)
Inductive post : Type :=
| PostText (s : string)
| PostList (l : list string).

Record reddit_object_t : Type := {
  thread_title : string;
  thread_post : post;
  comments : list comment
}.

Record settings_t : Type := {
  storymode : bool;
  storymodemethod : Z;
  silence_duration : Q;   (* settings.config["settings"]["tts"]["silence_duration"] *)
  post_lang : string      (* settings.config["reddit"]["thread"]["post_lang"] *)
}.

(** The second argument of [split_post]: ["postaudio"] or a comment index. *)
Inductive unit_id : Type :=
| UPost
| UIdx (idx : nat).

(** The file names that [call_tts] receives. *)
Inductive filename : Type :=
| FTitle                              (* "title" *)
| FWhole (u : unit_id)                (* f"{idx}" and "postaudio" *)
| FPostN (idx : nat)                  (* f"postaudio-{idx}" *)
| FPart (u : unit_id) (idy : nat).    (* f"{idx}-{idy}.part" *)

(** One line of [list.txt]. *)
Inductive concat_entry : Type :=
| EPart (u : unit_id) (idz : nat)     (* file '{idx}-{idz}.part.mp3' *)
| ESilence.                           (* file 'silence.mp3' *)

(** What the engine calls and does not define: [utils.voice.sanitize_text]
    and the translator used by [process_text], the two tools that measure
    the clip which the speech module wrote for a text ([None]: the tool
    raised), and [os.unlink] ([false]: it raised an [OSError], of which
    [FileNotFoundError] is one).  [process_text_of_list] is what
    [process_text] makes of a [thread_post] that is a list and not a
    string: the two functions that decide it are not defined here. *)
Record collaborators : Type := {
  sanitize_text : string -> string;
  translate_text : string -> string -> string;
  ffprobe : filename -> string -> option Q;
  moviepy : filename -> string -> option Q;
  unlink_ok : filename -> bool;
  process_text_of_list : list string -> result string
}.

(** *** The engine *)

Record TTSEngine : Type := {
  max_chars : nat;                    (* self.tts_module.max_chars *)
  reddit_object : reddit_object_t;
  max_length : Q;
  length : Q;
  last_clip_length : Q;
  (* the effects on the working directory, oldest first *)
  synthesized : list (filename * string);         (* tts_module.run *)
  silence_mp3 : option Q;                         (* create_silence_mp3 *)
  concat_log : list (unit_id * list concat_entry);(* list.txt at each ffmpeg concat *)
  unlinked : list filename                        (* os.unlink *)
}.

(** [TTSEngine.__init__]. *)
Definition init (tts_max_chars : nat) (doc : reddit_object_t) (max_length : Q)
    (last_clip_length : Q) : TTSEngine :=
  {| max_chars := tts_max_chars; reddit_object := doc; max_length := max_length;
     length := 0; last_clip_length := last_clip_length;
     synthesized := []; silence_mp3 := None; concat_log := []; unlinked := [] |}.

Definition DEFAULT_MAX_LENGTH : Q := 50.

Definition with_budget (e : TTSEngine) (len last : Q) : TTSEngine :=
  {| max_chars := max_chars e; reddit_object := reddit_object e;
     max_length := max_length e; length := len; last_clip_length := last;
     synthesized := synthesized e; silence_mp3 := silence_mp3 e;
     concat_log := concat_log e; unlinked := unlinked e |}.

Definition with_synthesized (e : TTSEngine) (l : list (filename * string)) : TTSEngine :=
  {| max_chars := max_chars e; reddit_object := reddit_object e;
     max_length := max_length e; length := length e;
     last_clip_length := last_clip_length e;
     synthesized := l; silence_mp3 := silence_mp3 e;
     concat_log := concat_log e; unlinked := unlinked e |}.

Definition with_silence (e : TTSEngine) (d : Q) : TTSEngine :=
  {| max_chars := max_chars e; reddit_object := reddit_object e;
     max_length := max_length e; length := length e;
     last_clip_length := last_clip_length e;
     synthesized := synthesized e; silence_mp3 := Some d;
     concat_log := concat_log e; unlinked := unlinked e |}.

Definition with_concat (e : TTSEngine) (l : list (unit_id * list concat_entry))
  : TTSEngine :=
  {| max_chars := max_chars e; reddit_object := reddit_object e;
     max_length := max_length e; length := length e;
     last_clip_length := last_clip_length e;
     synthesized := synthesized e; silence_mp3 := silence_mp3 e;
     concat_log := l; unlinked := unlinked e |}.

Definition with_unlinked (e : TTSEngine) (l : list filename) : TTSEngine :=
  {| max_chars := max_chars e; reddit_object := reddit_object e;
     max_length := max_length e; length := length e;
     last_clip_length := last_clip_length e;
     synthesized := synthesized e; silence_mp3 := silence_mp3 e;
     concat_log := concat_log e; unlinked := l |}.

Definition with_comments (e : TTSEngine) (cs : list comment) : TTSEngine :=
  {| max_chars := max_chars e;
     reddit_object := {| thread_title := thread_title (reddit_object e);
                         thread_post := thread_post (reddit_object e);
                         comments := cs |};
     max_length := max_length e; length := length e;
     last_clip_length := last_clip_length e;
     synthesized := synthesized e; silence_mp3 := silence_mp3 e;
     concat_log := concat_log e; unlinked := unlinked e |}.

(** *** [add_periods], lines 53-68 *)

Definition url_char (c : ascii) : bool :=
  is_alpha c || is_digit c
  || existsb (Ascii.eqb c) (list_ascii_of_string "./?:@-_=#").

Definition url_tail_char (c : ascii) : bool :=
  is_alpha c || is_digit c
  || existsb (Ascii.eqb c) (list_ascii_of_string ".&/?:@-_=#").

(** Line 58:
    [((http|https)\:\/\/)?[a-zA-Z0-9\.\/\?\:@\-_=#]+\.([a-zA-Z]){2,6}([a-zA-Z0-9\.\&\/\?\:@\-_=#])*]. *)
Definition regex_urls : regex :=
  Cat (Repeat (Cat (Or (Str "http") (Str "https")) (Str "://")) 0 1)
 (Cat (Many (Class url_char) 1)
 (Cat (Lit ".")
 (Cat (Repeat (Class is_alpha) 2 6)
      (Many (Class url_tail_char) 0)))).

(** [\bAI\b] and [\bAGI\b]. *)
Definition regex_AI : regex := Cat Boundary (Cat (Str "AI") Boundary).
Definition regex_AGI : regex := Cat Boundary (Cat (Str "AGI") Boundary).

Definition dquote : ascii := "034".

(** Line 68: a period, a double quote, a period. *)
Definition regex_quote : regex :=
  Cat (Lit ".") (Cat (Lit dquote) (Lit ".")).

(** Its replacement: a double quote, a period. *)
Definition quote_period : string := String dquote ".".

Definition nl : string := String newline EmptyString.

(** Lines 59-62: the passes before the test of the last character. *)
Definition strip_and_expand (body : string) : string :=
  let body := sub regex_urls " " body in
  let body := replace nl ". " body in
  let body := sub regex_AI "A.I" body in
  sub regex_AGI "A.G.I" body.

(** Lines 65-68: the passes after it. *)
Definition collapse (body : string) : string :=
  let body := replace ". . ." "." body in
  let body := replace ".. . " "." body in
  let body := replace ". . " "." body in
  sub regex_quote quote_period body.

(** The body of the loop of [add_periods], on one [comment_body]. *)
Definition add_periods_body (body : string) : result string :=
  let body := strip_and_expand body in
  match last_char body with
  | None => Raise IndexError
  | Some c =>
      let body := if Ascii.eqb c "." then body else body ++ "." in
      Ok (collapse body)
  end.

(** The loop over [reddit_object["comments"]]: the comments are updated in
    place, so those before a failing one stay normalized. *)
Fixpoint add_periods_loop (cs : list comment) : list comment * result unit :=
  match cs with
  | [] => ([], Ok tt)
  | c :: cs' =>
      match add_periods_body (comment_body c) with
      | Raise e =>
          ({| comment_body := strip_and_expand (comment_body c) |} :: cs', Raise e)
      | Ok body =>
          let '(cs'', r) := add_periods_loop cs' in
          ({| comment_body := body |} :: cs'', r)
      end
  end.

Definition add_periods (e : TTSEngine) : TTSEngine * result unit :=
  let '(cs, r) := add_periods_loop (comments (reddit_object e)) in
  (with_comments e cs, r).

Section Engine.

Variable world : collaborators.
Variable settings : settings_t.

(** [process_text(text)], lines 209-216, with [clean] left at its default. *)
Definition process_text (text : string) : string :=
  let new_text := sanitize_text world text in
  match post_lang settings with
  | EmptyString => new_text
  | lang => sanitize_text world (translate_text world text lang)
  end.

(** *** [call_tts], lines 147-196 *)

(** Line 183-185: the estimate from the number of words. *)
Definition estimated_duration (text : string) : Q :=
  (inject_Z (Z.of_nat (word_count text)) / 150) * 60.

Definition estimate (text : string) : Q :=
  let d := estimated_duration text in
  if Qle_bool d 1 then 1 else d.       (* max(1, estimated_duration) *)

(** Lines 155-186: ffprobe, else MoviePy, else the estimate. *)
Definition clip_duration (file : filename) (text : string) : Q :=
  match ffprobe world file text with
  | Some d => d
  | None =>
      match moviepy world file text with
      | Some d => d
      | None => estimate text
      end
  end.

Definition Qlt_bool (a b : Q) : bool := negb (Qle_bool b a).

(** Lines 189-196. *)
Definition update_durations (e : TTSEngine) (clip_duration : Q) : TTSEngine :=
  if Qlt_bool 0 clip_duration
  then with_budget e (length e + clip_duration) clip_duration
  else with_budget e (length e) 0.

Definition call_tts (e : TTSEngine) (file : filename) (text : string) : TTSEngine :=
  let e := with_synthesized e (synthesized e ++ [(file, text)])%list in
  update_durations e (clip_duration file text).

Definition create_silence_mp3 (e : TTSEngine) : TTSEngine :=
  with_silence e (silence_duration settings).

(** *** [split_post], lines 106-145 *)

(** Line 111: [ *(((.|\n){0,max_chars})(\.|.$))]. *)
Definition split_regex (max_chars : nat) : regex :=
  Cat (Many (Lit " ") 0)
 (Cat (Repeat (Or Dot (Lit newline)) 0 max_chars)
      (Or (Lit ".") (Cat Dot Dollar))).

Definition split_text_of (max_chars : nat) (text : string) : list string :=
  map strip (finditer (split_regex max_chars) text).

(** [not newtext or newtext.isspace()]. *)
Definition blank (newtext : string) : bool :=
  match newtext with EmptyString => true | _ => isspace newtext end.

(** What [list.txt] holds after lines 126-130: one line for every element
    of [split_text], then one line for the silence. *)
Definition list_txt (idx : unit_id) (n : nat) : list concat_entry :=
  (map (EPart idx) (seq 0 n) ++ [ESilence])%list.

(** The loop of lines 117-138 from element [idy] on; [n] is
    [len(split_text)]. *)
Fixpoint split_loop (idx : unit_id) (n : nat) (e : TTSEngine)
    (split_files : list filename) (idy : nat) (cuts : list string)
  : TTSEngine * list filename :=
  match cuts with
  | [] => (e, split_files)
  | text_cut :: cuts' =>
      let newtext := process_text text_cut in
      if blank newtext then split_loop idx n e split_files (S idy) cuts'
      else
        let e := call_tts e (FPart idx idy) newtext in
        let split_files := (split_files ++ [FPart idx idy])%list in
        let e := with_concat e (concat_log e ++ [(idx, list_txt idx n)])%list in
        split_loop idx n e split_files (S idy) cuts'
  end.

(** Lines 139-145: the files are unlinked in order; the first [os.unlink]
    that raises ends the loop, and the handlers print and go on.  The
    result is the list of the files that were removed. *)
Fixpoint unlink_loop (split_files : list filename) : list filename :=
  match split_files with
  | [] => []
  | file :: split_files' =>
      if unlink_ok world file then file :: unlink_loop split_files' else []
  end.

Definition split_post (e : TTSEngine) (text : string) (idx : unit_id) : TTSEngine :=
  let split_text := split_text_of (max_chars e) text in
  let e := create_silence_mp3 e in
  let '(e, split_files) :=
    split_loop idx (List.length split_text) e [] 0 split_text in
  with_unlinked e (unlinked e ++ unlink_loop split_files)%list.

(** *** [run], lines 70-104 *)

Inductive loop_exit : Type :=
| Exhausted    (* the [for] ran out of comments *)
| Broke.       (* the [break] of line 95 *)

(** Lines 96-101. *)
Definition say_comment (e : TTSEngine) (idx : nat) (body : string) : TTSEngine :=
  if Nat.ltb (max_chars e) (String.length body)
  then split_post e body (UIdx idx)
  else call_tts e (FWhole (UIdx idx)) (process_text body).

(** The loop of lines 90-101 from index [idx] on.  When the [for] runs out,
    [idx] keeps the index of the last comment, or its initial 0 when there
    was none. *)
Fixpoint comments_loop (e : TTSEngine) (idx : nat) (cs : list comment)
  : TTSEngine * nat * loop_exit :=
  match cs with
  | [] => (e, Nat.pred idx, Exhausted)
  | c :: cs' =>
      if Qlt_bool (max_length e) (length e) && Nat.ltb 1 idx
      then (with_budget e (length e - last_clip_length e) (last_clip_length e),
            (idx - 1)%nat, Broke)
      else comments_loop (say_comment e idx (comment_body c)) (S idx) cs'
  end.

(** The loop of lines 86-87. *)
Fixpoint story_loop (e : TTSEngine) (idx : nat) (texts : list string)
  : TTSEngine * nat :=
  match texts with
  | [] => (e, Nat.pred idx)
  | text :: texts' =>
      story_loop (call_tts e (FPostN idx) (process_text text)) (S idx) texts'
  end.

Fixpoint chars_of (s : string) : list string :=
  match s with
  | EmptyString => []
  | String c s' => String c EmptyString :: chars_of s'
  end.

(** [run] with the exit of the comment loop made visible. *)
Definition run_traced (e : TTSEngine) : TTSEngine * result (Q * nat * loop_exit) :=
  match add_periods e with
  | (e, Raise x) => (e, Raise x)
  | (e, Ok _) =>
      let e := call_tts e FTitle (process_text (thread_title (reddit_object e))) in
      if storymode settings then
        if (storymodemethod settings =? 0)%Z then
          match thread_post (reddit_object e) with
          | PostText text =>
              let e := if Nat.ltb (max_chars e) (String.length text)
                       then split_post e text UPost
                       else call_tts e (FWhole UPost) (process_text text) in
              (e, Ok (length e, O, Exhausted))
          | PostList texts =>
              (* [len] of the list is compared with [max_chars]; a longer
                 list goes to [split_post], where [re.finditer] refuses
                 what is not a string (line 110, before anything else is
                 done); a shorter one goes to [process_text] *)
              if Nat.ltb (max_chars e) (List.length texts)
              then (e, Raise TypeError)
              else
                match process_text_of_list world texts with
                | Ok text =>
                    let e := call_tts e (FWhole UPost) text in
                    (e, Ok (length e, O, Exhausted))
                | Raise x => (e, Raise x)
                end
          end
        else if (storymodemethod settings =? 1)%Z then
          let texts := match thread_post (reddit_object e) with
                       | PostText text => chars_of text
                       | PostList l => l
                       end in
          let '(e, idx) := story_loop e 0 texts in
          (e, Ok (length e, idx, Exhausted))
        else (e, Ok (length e, O, Exhausted))
      else
        let '(e, idx, x) := comments_loop e 0 (comments (reddit_object e)) in
        (e, Ok (length e, idx, x))
  end.

(** [run]: the pair [(self.length, idx)] of line 104. *)
Definition run (e : TTSEngine) : TTSEngine * result (Q * nat) :=
  match run_traced e with
  | (e, Ok (len, idx, _)) => (e, Ok (len, idx))
  | (e, Raise x) => (e, Raise x)
  end.

End Engine.

End TTS.

(** ** Notions used to state the properties *)

Module Notions.

Import Py TTS.
Open Scope string_scope.

(** [old in s]. *)
Fixpoint contains (old s : string) : bool :=
  String.prefix old s
  || match s with
     | String _ s' => contains old s'
     | EmptyString => false
     end.

(** [re.search(r, s) is None]. *)
Definition no_match (r : regex) (s : string) : bool :=
  match finditer r s with [] => true | _ => false end.

(** A text on which no pass of [add_periods] has anything to do: it ends
    with a period and holds no URL, no line break, no token [AI] or [AGI]
    and none of the patterns that lines 65-68 collapse. *)
Definition normalized (s : string) : bool :=
  no_match regex_urls s
  && negb (contains nl s)
  && no_match regex_AI s
  && no_match regex_AGI s
  && match last_char s with Some c => Ascii.eqb c "." | None => false end
  && negb (contains ". . ." s)
  && negb (contains ".. . " s)
  && negb (contains ". . " s)
  && no_match regex_quote s.

Definition has_empty_body (cs : list comment) : bool :=
  existsb (fun c => String.eqb (comment_body c) EmptyString) cs.

Definition Qsum (l : list Q) : Q := fold_right Qplus 0 l.

(** What a measured duration adds to the running total (lines 189-196). *)
Definition counted (d : Q) : Q := if Qlt_bool 0 d then d else 0.

Fixpoint string_repeat (n : nat) (s : string) : string :=
  match n with
  | O => EmptyString
  | S n' => s ++ string_repeat n' s
  end.

(** A sentence of [n] characters: [n - 1] letters and a period. *)
Definition sentence (n : nat) : string :=
  string_repeat (Nat.pred n) "a" ++ ".".

(** 2800 characters: 28 sentences of 100 characters. *)
Definition text_of_28_sentences : string := string_repeat 28 (sentence 100).

(** 2800 characters: 7 sentences of 400 characters. *)
Definition text_of_7_sentences : string := string_repeat 7 (sentence 400).

Definition is_silence (en : concat_entry) : bool :=
  match en with ESilence => true | EPart _ _ => false end.

(** The duration of the file that ffmpeg's concat demuxer writes from a
    [list.txt]: the sum of the durations of the files it lists. *)
Definition concat_duration (part : nat -> Q) (silence : Q)
    (l : list concat_entry) : Q :=
  Qsum (map (fun en => match en with
                       | EPart _ idz => part idz
                       | ESilence => silence
                       end) l).

Section Clips.

Variable world : collaborators.
Variable settings : settings_t.

(** The measured durations of the clips that [split_post] synthesizes for
    the elements of [split_text] from [idy] on: one for every element that
    is not blank. *)
Fixpoint part_clips (idx : unit_id) (idy : nat) (cuts : list string) : list Q :=
  match cuts with
  | [] => []
  | text_cut :: cuts' =>
      let newtext := process_text world settings text_cut in
      if blank newtext then part_clips idx (S idy) cuts'
      else clip_duration world (FPart idx idy) newtext
           :: part_clips idx (S idy) cuts'
  end.

(** The measured durations of the clips synthesized for comment [idx]. *)
Definition unit_clips (max_chars : nat) (idx : nat) (body : string) : list Q :=
  if Nat.ltb max_chars (String.length body)
  then part_clips (UIdx idx) 0 (split_text_of max_chars body)
  else [clip_duration world (FWhole (UIdx idx)) (process_text world settings body)].

(** The same for the comments [cs], the first of which has index [idx]. *)
Fixpoint clips_of (max_chars : nat) (idx : nat) (cs : list comment) : list Q :=
  match cs with
  | [] => []
  | c :: cs' =>
      (unit_clips max_chars idx (comment_body c) ++ clips_of max_chars (S idx) cs')%list
  end.

Definition title_clip (title : string) : Q :=
  clip_duration world FTitle (process_text world settings title).

End Clips.

(** [advances e e' clips]: from [e] to [e'] the clips of measured durations
    [clips] were synthesized, in that order. *)
Definition advances (e e' : TTSEngine) (clips : list Q) : Prop :=
  max_length e' = max_length e
  /\ max_chars e' = max_chars e
  /\ reddit_object e' = reddit_object e
  /\ length e' == length e + Qsum (map counted clips)
  /\ last_clip_length e' = last (map counted clips) (last_clip_length e).

(** *** Scenarios *)

(** Collaborators that leave the text as it is and whose ffprobe reports
    the duration [durations file] for the clip written to [file]. *)
Definition plain_world (durations : filename -> option Q) : collaborators :=
  {| sanitize_text := fun t => t;
     translate_text := fun t _ => t;
     ffprobe := fun file _ => durations file;
     moviepy := fun _ _ => None;
     unlink_ok := fun _ => true;
     process_text_of_list := fun _ => Raise TypeError |}.

Definition world_without_probes : collaborators := plain_world (fun _ => None).

Definition comment_mode : settings_t :=
  {| storymode := false; storymodemethod := 0;
     silence_duration := 3 # 10; post_lang := EmptyString |}.

Definition document (title : string) (bodies : list string) : reddit_object_t :=
  {| thread_title := title;
     thread_post := PostText EmptyString;
     comments := map (fun b => {| comment_body := b |}) bodies |}.

Definition four_comments : reddit_object_t :=
  document "A question"
           ["First answer."; "Second answer."; "Third answer."; "Fourth answer."].

(** Comments of 5, 5, 5 and 40 seconds after a title of [title] seconds. *)
Definition durations_5_5_5_40 (title : Q) (file : filename) : option Q :=
  match file with
  | FTitle => Some title
  | FWhole (UIdx 3) => Some 40
  | FWhole (UIdx _) => Some 5
  | _ => None
  end.

(** Four comments, the third of which is longer than the 10 characters
    that the speech module takes at once. *)
Definition comments_with_a_long_one : reddit_object_t :=
  document "A question" ["Yes."; "No."; "It is. So it was."; "Maybe."].

Definition durations_with_split (file : filename) : option Q :=
  match file with
  | FTitle => Some 0
  | FWhole (UIdx 3) => Some 40
  | FWhole (UIdx _) => Some 5
  | FPart (UIdx 2) 0 => Some 3
  | FPart (UIdx 2) 1 => Some 4
  | _ => None
  end.

Definition document_with_an_empty_comment : reddit_object_t :=
  document "A title" ["First comment"; EmptyString; "Third comment"].

Definition tools_long_source : Background.media_tools :=
  {| Background.probe_audio := Some 100;
     Background.extract_audio :=
       fun s => if (s <? 40)%Z then Background.ExtractOk
                else if (s <? 60)%Z then Background.ExtractProcessError
                else Background.ExtractEmptyFile;
     Background.silent_audio_ok := true;
     Background.probe_video := Some 100;
     Background.extract_video := fun _ => Background.ExtractOk;
     Background.moviepy_extract_video := fun _ _ => true |}.

Definition tools_source_of_12_seconds : Background.media_tools :=
  {| Background.probe_audio := Some 12;
     Background.extract_audio := fun _ => Background.ExtractOk;
     Background.silent_audio_ok := true;
     Background.probe_video := Some 100;
     Background.extract_video := fun _ => Background.ExtractOk;
     Background.moviepy_extract_video := fun _ _ => true |}.

End Notions.

(** ** The background catalog of [src/video_creation/background.py] *)

Module Catalog.

Import Py.
Open Scope string_scope.

(** A value of a catalog entry: what [json.load] yields, or the function
    that [load_background_options] stores at index 3. *)
Inductive value : Type :=
| VStr (s : string)
| VNum (q : Q)
| VPosition.   (* lambda t: ("center", pos + t), [pos] being the variable
                  of the loop of lines 33-37 *)

(** An entry is the list [[uri, filename, credit, position]] (video) or
    [[uri, filename, credit]] (audio); a catalog is a JSON object, its keys
    in order. *)
Definition entry : Type := list value.
Definition dict : Type := list (string * entry).

Inductive outcome (A : Type) : Type :=
| Done (a : A)
| KeyError (key : string)
| Failed (e : exn).

Arguments Done {A} a.
Arguments KeyError {A} key.
Arguments Failed {A} e.

(** [d[k]]. *)
Fixpoint lookup (k : string) (d : dict) : option entry :=
  match d with
  | [] => None
  | (k', e) :: d' => if String.eqb k k' then Some e else lookup k d'
  end.

(** [k in d]. *)
Definition mem (k : string) (d : dict) : bool :=
  match lookup k d with Some _ => true | None => false end.

Fixpoint remove (k : string) (d : dict) : dict :=
  match d with
  | [] => []
  | (k', e) :: d' => if String.eqb k k' then d' else (k', e) :: remove k d'
  end.

(** [del d[k]]. *)
Definition del (k : string) (d : dict) : outcome dict :=
  if mem k d then Done (remove k d) else KeyError k.

(** [d[k] = e] for a key that is present. *)
Fixpoint update (k : string) (e : entry) (d : dict) : dict :=
  match d with
  | [] => []
  | (k', e') :: d' =>
      if String.eqb k k' then (k', e) :: d' else (k', e') :: update k e d'
  end.

(** [e[3] = v]. *)
Definition set_position (e : entry) (v : value) : entry :=
  (firstn 3 e ++ v :: skipn 4 e)%list.

(** [pos != "center"] is false. *)
Definition is_center (pos : value) : bool :=
  match pos with
  | VStr s => String.eqb s "center"
  | _ => false
  end.

(** The loop of lines 33-37 over the names that are left; [pos] is the
    variable [pos] of the function, which every stored lambda reads when it
    is called. *)
Fixpoint position_loop (names : list string) (video : dict) (pos : option value)
  : outcome (dict * option value) :=
  match names with
  | [] => Done (video, pos)
  | name :: names' =>
      match lookup name video with
      | None => KeyError name
      | Some e =>
          match nth_error e 3 with
          | None => Failed IndexError
          | Some p =>
              let video := if is_center p then video
                           else update name (set_position e VPosition) video in
              position_loop names' video (Some p)
          end
      end
  end.

(** The position that the loop reads for each of [names], in order. *)
Definition positions_read (names : list string) (d : dict) : list (option value) :=
  map (fun k => match lookup k d with
                | Some e => nth_error e 3
                | None => None
                end) names.

Record background_options_t : Type := {
  video : dict;
  audio : dict;
  pos : option value    (* the variable that the stored lambdas share *)
}.

(** [load_background_options()], lines 19-39, from the contents of the two
    JSON files. *)
Definition load_background_options (video_json audio_json : dict)
  : outcome background_options_t :=
  match del "__comment" video_json with
  | KeyError k => KeyError k
  | Failed e => Failed e
  | Done video =>
      match del "__comment" audio_json with
      | KeyError k => KeyError k
      | Failed e => Failed e
      | Done audio =>
          match position_loop (map fst video) video None with
          | KeyError k => KeyError k
          | Failed e => Failed e
          | Done (video, pos) =>
              Done {| video := video; audio := audio; pos := pos |}
          end
      end
  end.

(** A call [f(t)] of a stored lambda: [("center", pos + t)], a [TypeError]
    when [pos] holds a string. *)
Definition call_position (options : background_options_t) (t : Q)
  : result (string * Q) :=
  match pos options with
  | Some (VNum p) => Ok ("center", p + t)
  | _ => Raise TypeError
  end.

Definition lower (c : ascii) : ascii :=
  if in_range "A" "Z" c then ascii_of_N (N_of_ascii c + 32) else c.

(** [s.casefold()] on ASCII text. *)
Fixpoint casefold (s : string) : string :=
  match s with
  | EmptyString => EmptyString
  | String c s' => String (lower c) (casefold s')
  end.

Fixpoint has_upper (s : string) : bool :=
  match s with
  | EmptyString => false
  | String c s' => in_range "A" "Z" c || has_upper s'
  end.

(** [random.choice(list(d.keys()))], then [d[choice]]. *)
Definition random_entry (d : dict) : dist (outcome entry) :=
  match d with
  | [] => dret (Failed IndexError)
  | _ => map (fun k => match lookup k d with
                       | Some e => Done e
                       | None => KeyError k
                       end) (map fst d)
  end.

(** [get_background_config(mode)], lines 110-123, for the catalog [d] of
    the mode; [configured] is [str(...)] of the configured value, [None]
    when reading it raised [AttributeError]. *)
Definition get_background_config (d : dict) (configured : option string)
  : dist (outcome entry) :=
  let choice := match configured with
                | Some v => Some (casefold v)
                | None => None
                end in
  match choice with
  | Some (String c s) =>
      match lookup (String c s) d with
      | Some e => dret (Done e)
      | None => random_entry d
      end
  | _ => random_entry d
  end.

End Catalog.

(** ** The working directory of a thread *)

Module Paths.

Import Py.
Open Scope string_scope.

(** The characters that [[^\w\s-]] does not match. *)
Definition id_char (c : ascii) : bool :=
  is_word c || is_space c || Ascii.eqb c "-".

(** [re.sub(r"[^\w\s-]", "", thread_id)]: line 47 of engine_wrapper.py and
    line 180 of background.py. *)
Definition redditid (thread_id : string) : string :=
  sub (Class (fun c => negb (id_char c))) EmptyString thread_id.

(** [self.path], line 48. *)
Definition mp3_path (path thread_id : string) : string :=
  path ++ redditid thread_id ++ "/mp3".

(** The background files of lines 209, 229 and 291 of background.py. *)
Definition background_mp3 (thread_id : string) : string :=
  "assets/temp/" ++ redditid thread_id ++ "/background.mp3".

Fixpoint string_filter (p : ascii -> bool) (s : string) : string :=
  match s with
  | EmptyString => EmptyString
  | String c s' => if p c then String c (string_filter p s') else string_filter p s'
  end.

Fixpoint string_forall (p : ascii -> bool) (s : string) : bool :=
  match s with
  | EmptyString => true
  | String c s' => p c && string_forall p s'
  end.

End Paths.

(** ** Further notions *)

Module MoreNotions.

Import Py TTS Notions Paths.
Open Scope string_scope.

(** The body that [add_periods] leaves in a comment. *)
Definition normalize (body : string) : string :=
  match add_periods_body body with
  | Ok out => out
  | Raise _ => strip_and_expand body
  end.

Definition normalize_comment (c : comment) : comment :=
  {| comment_body := normalize (comment_body c) |}.

Definition not_newline (c : ascii) : bool := negb (Ascii.eqb c newline).

(** The loops of [rmatch] for [r{lo,}] and [r{lo,hi}], by their names. *)
Definition many_from {A : Type} (r : regex)
    (k : option ascii -> nat -> string -> option A)
  : nat -> nat -> option ascii -> nat -> string -> option A :=
  fix many (fuel lo : nat) (prev : option ascii) (n : nat) (s : string)
      {struct fuel} : option A :=
    let stop := if Nat.eqb lo 0 then k prev n s else None in
    match fuel with
    | O => stop
    | S fuel' =>
        match rmatch r prev n s
                (fun prev' n' s' =>
                   if Nat.ltb n n' then many fuel' (Nat.pred lo) prev' n' s'
                   else None) with
        | Some x => Some x
        | None => stop
        end
    end.

Definition repeat_from {A : Type} (r : regex)
    (k : option ascii -> nat -> string -> option A)
  : nat -> nat -> option ascii -> nat -> string -> option A :=
  fix rep (lo hi : nat) (prev : option ascii) (n : nat) (s : string)
      {struct hi} : option A :=
    let stop := if Nat.eqb lo 0 then k prev n s else None in
    match hi with
    | O => stop
    | S hi' =>
        match rmatch r prev n s
                (fun prev' n' s' => rep (Nat.pred lo) hi' prev' n' s') with
        | Some x => Some x
        | None => stop
        end
    end.

(** The first [j] characters of [s] are blanks. *)
Fixpoint leading_blanks (j : nat) (s : string) : bool :=
  match j, s with
  | O, _ => true
  | S j', String c s' => Ascii.eqb c " " && leading_blanks j' s'
  | S _, EmptyString => false
  end.

Section Parts.

Variable world : collaborators.
Variable settings : settings_t.

(** The part files that [split_post] synthesizes for the elements of
    [split_text] from [idy] on, each with the text that is spoken. *)
Fixpoint spoken_parts (idx : unit_id) (idy : nat) (cuts : list string)
  : list (filename * string) :=
  match cuts with
  | [] => []
  | text_cut :: cuts' =>
      let newtext := process_text world settings text_cut in
      if blank newtext then spoken_parts idx (S idy) cuts'
      else (FPart idx idy, newtext) :: spoken_parts idx (S idy) cuts'
  end.

(** The clips of the elements of a pre-split story, from index [idx] on. *)
Fixpoint story_clips (idx : nat) (texts : list string) : list Q :=
  match texts with
  | [] => []
  | text :: texts' =>
      clip_duration world (FPostN idx) (process_text world settings text)
      :: story_clips (S idx) texts'
  end.

Fixpoint story_files (idx : nat) (texts : list string) : list (filename * string) :=
  match texts with
  | [] => []
  | text :: texts' =>
      (FPostN idx, process_text world settings text) :: story_files (S idx) texts'
  end.



End Parts.


(** What lines 148-196 leave in the engine for a clip whose duration was
    found to be [d]: the speech module was called once, for [text] into
    [file]; a duration above 0 is added to the total and becomes the length
    of the last clip; any other leaves the total and sets the length of the
    last clip to 0. *)
Definition records_clip (e e' : TTSEngine) (file : filename) (text : string)
    (d : Q) : Prop :=
  synthesized e' = (synthesized e ++ [(file, text)])%list
  /\ max_length e' = max_length e
  /\ (0 < d -> length e' = length e + d /\ last_clip_length e' = d)
  /\ (d <= 0 -> length e' = length e /\ last_clip_length e' = 0).

(** A text written out as its words, each followed by the blanks that
    come after it. *)
Fixpoint join_words (words : list (string * string)) : string :=
  match words with
  | [] => EmptyString
  | (w, gap) :: words' => w ++ gap ++ join_words words'
  end.

(** A word: not empty, and without a blank. *)
Definition is_word_text (w : string) : bool :=
  match w with
  | EmptyString => false
  | _ => string_forall (fun c => negb (is_space c)) w
  end.

(** Every word is a word, every gap is made of blanks, and only the gap
    after the last word may be empty. *)
Fixpoint well_spaced (words : list (string * string)) : bool :=
  match words with
  | [] => true
  | (w, gap) :: words' =>
      is_word_text w && all_space gap
      && match words' with
         | [] => true
         | _ :: _ => match gap with EmptyString => false | _ => true end
                     && well_spaced words'
         end
  end.

(** Collaborators whose ffprobe measures the title only, and whose MoviePy
    measures the first comment only. *)
Definition probing_world (title_seconds comment_seconds : Q) : collaborators :=
  {| sanitize_text := fun t => t;
     translate_text := fun t _ => t;
     ffprobe := fun file _ =>
                  match file with FTitle => Some title_seconds | _ => None end;
     moviepy := fun file _ =>
                  match file with
                  | FWhole (UIdx O) => Some comment_seconds
                  | _ => None
                  end;
     unlink_ok := fun _ => true;
     process_text_of_list := fun _ => Raise TypeError |}.

Definition story_mode (method : Z) : settings_t :=
  {| storymode := true; storymodemethod := method;
     silence_duration := 3 # 10; post_lang := EmptyString |}.

Definition story (title : string) (body : post) : reddit_object_t :=
  {| thread_title := title; thread_post := body; comments := [] |}.

(** A title of 2 seconds, a story body of 60, story parts of 30 each. *)
Definition durations_story (file : filename) : option Q :=
  match file with
  | FTitle => Some 2
  | FWhole UPost => Some 60
  | FPostN _ => Some 30
  | _ => Some 5
  end.

Definition catalog_of_three : Catalog.dict :=
  [ ("__comment", [Catalog.VStr "Supported backgrounds"]);
    ("minecraft", [Catalog.VStr "uri1"; Catalog.VStr "parkour.mp4";
                   Catalog.VStr "bbswitzer"; Catalog.VStr "center"]);
    ("gta", [Catalog.VStr "uri2"; Catalog.VStr "gta.mp4";
             Catalog.VStr "Achy"; Catalog.VNum 480]);
    ("rocket", [Catalog.VStr "uri3"; Catalog.VStr "rocket.mp4";
                Catalog.VStr "Orbital"; Catalog.VNum 200]) ].

Definition audio_catalog : Catalog.dict :=
  [ ("__comment", [Catalog.VStr "Supported audios"]);
    ("lofi", [Catalog.VStr "uri4"; Catalog.VStr "lofi.mp3"; Catalog.VStr "Super"]) ].

End MoreNotions.

(** ** Properties of the background segment selector *)

Module BackgroundFacts.

Import Background Notions.
Open Scope Z_scope.

Lemma int_inject_Z (z : Z) : int (inject_Z z) = z.
Proof. unfold int; simpl. apply Z.quot_1_r. Qed.

Lemma in_randint (a b s : Z) : In s (randint a b) <-> a <= s <= b.
Proof.
  unfold randint. rewrite in_map_iff. split.
  - intros [k [<- Hk]]. apply in_seq in Hk. lia.
  - intros H. exists (Z.to_nat (s - a)). split; [lia|].
    apply in_seq. lia.
Qed.

Lemma NoDup_randint (a b : Z) : NoDup (randint a b).
Proof.
  unfold randint. apply Injective_map_NoDup.
  - intros x y H. lia.
  - apply seq_NoDup.
Qed.

Lemma length_randint (a b : Z) : a <= b -> Z.of_nat (List.length (randint a b)) = b - a + 1.
Proof. intros H. unfold randint. rewrite length_map, length_seq. lia. Qed.

Lemma clamp_positive (d : Z) : 1 <= clamp_video_length d.
Proof. unfold clamp_video_length. destruct (Z.leb_spec d 0); lia. Qed.

Lemma clamp_id (d : Z) : 0 < d -> clamp_video_length d = d.
Proof. unfold clamp_video_length. destruct (Z.leb_spec d 0); lia. Qed.

Lemma margin_bounds (L : Z) : 0 <= L -> 0 <= margin L <= 2.
Proof.
  intros H. unfold margin.
  assert (0 <= L / 10) by (apply Z.div_pos; lia). lia.
Qed.

(** With more source than requested, the largest start leaves room for the
    whole window. *)
Lemma max_start_time_bounds (D L : Z) :
  1 <= D -> D < L -> 0 <= max_start_time D L <= L - D.
Proof.
  intros HD HL. unfold max_start_time.
  pose proof (margin_bounds L ltac:(lia)).
  destruct (Z.ltb_spec (L - D - margin L) 0); lia.
Qed.

(** A start in the permitted range is kept as it is: neither the clipping
    of line 92 nor the last resort of line 97 applies. *)
Lemma window_from_start_in_range (D L s : Z) :
  1 <= D -> 0 <= s <= L - D -> window_from_start D L s = Ok (s, s + D).
Proof.
  intros HD Hs. unfold window_from_start.
  destruct (Z.gtb_spec (s + D) L); [lia|].
  destruct (Z.leb_spec (s + D) s); [lia|]. reflexivity.
Qed.

Lemma starts_are_randint (m : Z) :
  0 <= m -> (if m <=? 0 then dret 0 else randint 0 m) = randint 0 m.
Proof.
  intros H. destruct (Z.leb_spec m 0); [|reflexivity].
  assert (m = 0) by lia. subst. reflexivity.
Qed.

(** The outcomes of the non-degenerate case. *)
Lemma outcomes_non_degenerate (video_length length_of_clip : Q) :
  let D := clamp_video_length (int video_length) in
  let L := int length_of_clip in
  D < L ->
  get_start_and_end_times video_length length_of_clip
  = map (fun s => Ok (s, s + D)) (randint 0 (max_start_time D L)).
Proof.
  intros D L HL. unfold get_start_and_end_times. fold D L.
  destruct (Z.leb_spec L D); [lia|].
  pose proof (clamp_positive (int video_length)) as HD. fold D in HD.
  pose proof (max_start_time_bounds D L HD HL) as Hm.
  rewrite starts_are_randint by lia.
  unfold dbind, dret. rewrite flat_map_concat_map.
  assert (E : forall l, (forall s, In s l -> 0 <= s <= L - D) ->
            List.concat (map (fun s => [window_from_start D L s]) l)
            = map (fun s => Ok (s, s + D)) l).
  { induction l as [|a l IH]; intros Hl; [reflexivity|].
    simpl. rewrite window_from_start_in_range; [|lia|apply Hl; now left].
    f_equal. apply IH. intros s Hs. apply Hl. now right. }
  apply E. intros s Hs. apply in_randint in Hs. lia.
Qed.

(** The outcomes of the degenerate case. *)
Lemma outcomes_degenerate (video_length length_of_clip : Q) :
  let D := clamp_video_length (int video_length) in
  let L := int length_of_clip in
  L <= D ->
  get_start_and_end_times video_length length_of_clip
  = [if L >? 0 then Ok (0, L) else Raise SourceTooShort].
Proof.
  intros D L HL. unfold get_start_and_end_times. fold D L.
  destruct (Z.leb_spec L D); [|lia].
  destruct (L >? 0); reflexivity.
Qed.

(** The selector always has an outcome, and it raises only on a source
    without a positive length. *)
Lemma get_start_and_end_times_total (video_length length_of_clip : Q) :
  get_start_and_end_times video_length length_of_clip <> []
  /\ (0 < int length_of_clip ->
      forall o, In o (get_start_and_end_times video_length length_of_clip) ->
                exists w, o = Ok w).
Proof.
  set (D := clamp_video_length (int video_length)).
  set (L := int length_of_clip).
  pose proof (clamp_positive (int video_length)) as HD. fold D in HD.
  destruct (Z.le_gt_cases L D) as [H|H].
  - rewrite (outcomes_degenerate video_length length_of_clip H). fold L.
    split; [discriminate|]. intros HL o [<-|[]].
    destruct (Z.gtb_spec L 0); [eauto|lia].
  - rewrite (outcomes_non_degenerate video_length length_of_clip H).
    fold D L. pose proof (max_start_time_bounds D L HD H) as Hm. split.
    + intros E. apply map_eq_nil in E.
      assert (In 0 (randint 0 (max_start_time D L))) as H0
          by (apply in_randint; lia).
      rewrite E in H0. destruct H0.
    + intros _ o Ho. apply in_map_iff in Ho. destruct Ho as [s [<- _]]. eauto.
Qed.

(** C1, as the code has it.  Let [D] be the requested duration after the
    clamp of lines 59-61 (a request of zero or less counts as one second)
    and [L] the source duration, both truncated to integers.  Every window
    [(start, end)] that [get_start_and_end_times] returns has
    [start < end] and [end <= L]; when [L > D], [end - start = D]; when
    [L <= D] and [L > 0] the window is the whole source [(0, L)]. *)
Theorem window_is_valid (video_length length_of_clip : Q) (w : Z * Z) :
  In (Ok w) (get_start_and_end_times video_length length_of_clip) ->
  let D := clamp_video_length (int video_length) in
  let L := int length_of_clip in
  0 <= fst w /\ fst w < snd w /\ snd w <= L
  /\ (D < L -> snd w - fst w = D)
  /\ (L <= D -> 0 < L -> w = (0, L)).
Proof.
  intros Hin D L.
  pose proof (clamp_positive (int video_length)) as HD. fold D in HD.
  destruct (Z.le_gt_cases L D) as [H|H].
  - rewrite (outcomes_degenerate video_length length_of_clip H) in Hin.
    fold L in Hin. destruct Hin as [Hin|[]].
    destruct (Z.gtb_spec L 0); [|discriminate].
    injection Hin as <-. simpl. repeat split; try lia.
  - rewrite (outcomes_non_degenerate video_length length_of_clip H) in Hin.
    fold D L in Hin. apply in_map_iff in Hin. destruct Hin as [s [E Hs]].
    injection E as <-. apply in_randint in Hs.
    pose proof (max_start_time_bounds D L HD H) as Hm. simpl.
    repeat split; try lia.
Qed.

Lemma window_is_valid_witness :
  In (Ok (7, 37)) (get_start_and_end_times 30 100)
  /\ 0 <= 7 /\ 7 < 37 /\ 37 <= 100 /\ 37 - 7 = 30.
Proof.
  assert (H : In (Ok (7, 37)) (get_start_and_end_times 30 100)).
  { vm_compute. do 7 right. left. reflexivity. }
  split; [exact H|].
  destruct (window_is_valid 30 100 (7, 37) H) as (H0 & H1 & H2 & H3 & _).
  split; [exact H0|]. split; [exact H1|]. split; [exact H2|].
  apply H3. reflexivity.
Defined.

(** C1 as the specification words it fails for a request of zero seconds:
    with [D = 0] and [L = 5] the source is longer than the request, the call
    returns the window [(0, 1)], and [end - start] is 1, not [D]. *)
Lemma window_length_differs_from_unclamped_request :
  int 0 = 0 /\ int 5 = 5 /\ 5 > 0
  /\ In (Ok (0, 1)) (get_start_and_end_times 0 5)
  /\ 1 - 0 <> 0.
Proof.
  repeat split; try reflexivity; try lia.
  vm_compute. left. reflexivity.
Qed.

(** C5.  In [get_start_and_end_times] with [L > D] ([D] and [L] being the
    values of [video_length] and [length_of_clip] at line 74), the largest
    start is [L - D - min(2, L // 10)], or [max(0, L - D)] when that is
    negative; the start is drawn uniformly from [0 .. largest start]: the
    outcomes are the windows [(s, s + D)], one for every integer [s] of that
    range, each exactly once (a single outcome with [s = 0] when the bound
    is 0). *)
Theorem start_is_uniform_below_max_start (video_length length_of_clip : Q) :
  let D := clamp_video_length (int video_length) in
  let L := int length_of_clip in
  L > D ->
  let m := max_start_time D L in
  (0 <= L - D - Z.min 2 (L / 10) -> m = L - D - Z.min 2 (L / 10))
  /\ (L - D - Z.min 2 (L / 10) < 0 -> m = Z.max 0 (L - D))
  /\ 0 <= m
  /\ get_start_and_end_times video_length length_of_clip
     = map (fun s => Ok (s, s + D)) (randint 0 m)
  /\ NoDup (randint 0 m)
  /\ Z.of_nat (List.length (randint 0 m)) = m + 1
  /\ (forall s, In s (randint 0 m) <-> 0 <= s <= m)
  /\ (m <= 0 -> randint 0 m = [0]).
Proof.
  intros D L HL m.
  pose proof (clamp_positive (int video_length)) as HD. fold D in HD.
  assert (Hm : 0 <= m <= L - D) by (apply max_start_time_bounds; lia).
  split; [|split; [|split; [|split; [|split; [|split; [|split]]]]]].
  - intros H. unfold m, max_start_time, margin.
    destruct (Z.ltb_spec (L - D - Z.min 2 (L / 10)) 0); [lia|reflexivity].
  - intros H. unfold m, max_start_time, margin.
    destruct (Z.ltb_spec (L - D - Z.min 2 (L / 10)) 0); [reflexivity|lia].
  - lia.
  - apply outcomes_non_degenerate. fold D L. lia.
  - apply NoDup_randint.
  - rewrite length_randint; lia.
  - intros s. apply in_randint.
  - intros H. assert (m = 0) as -> by lia. reflexivity.
Qed.

(** The scenario of C5: [L = 100], [D = 30]; the margin is 2, the largest
    start 68, and the outcomes are the windows [(s, s + 30)] for
    [s = 0 .. 68]. *)
Lemma start_is_uniform_scenario_100_30 :
  int 100 > clamp_video_length (int 30)
  /\ margin 100 = 2
  /\ max_start_time 30 100 = 68
  /\ get_start_and_end_times 30 100
     = map (fun s => Ok (s, s + 30)) (randint 0 68)
  /\ (forall s, In s (randint 0 68) <-> 0 <= s <= 68)
  /\ Z.of_nat (List.length (randint 0 68)) = 69.
Proof.
  assert (H : int 100 > clamp_video_length (int 30)) by reflexivity.
  split; [exact H|]. split; [reflexivity|]. split; [reflexivity|].
  destruct (start_is_uniform_below_max_start 30 100 H)
    as (_ & _ & _ & E & _ & Hlen & Hin & _).
  split; [exact E|]. split; [exact Hin|exact Hlen].
Defined.

(** *** The audio path of [chop_background] *)

(** Truncation keeps an integer lower bound that is strictly exceeded. *)
Lemma int_above (z : Z) (q : Q) : 0 <= z -> (inject_Z z < q)%Q -> z <= int q.
Proof.
  intros Hz H. unfold int. destruct q as [n d]. unfold Qlt in H. simpl in *.
  assert (0 <= n) by nia.
  apply Z.quot_le_lower_bound; nia.
Qed.

(** C7, as the code has it.  Let the requested duration [D] be
    non-negative and let the silent placeholder be producible.  With a zero
    volume no audio file is produced.  Otherwise, a probed duration of at
    most [D + 2] seconds gives the silent placeholder of [D] seconds and no
    extraction; a longer source gives, for each window that the selector
    can return, the extraction at its start when that extraction leaves a
    usable file, and the silent placeholder of [D] seconds when it fails or
    leaves a missing or empty file. *)
Theorem chop_background_audio_cases
    (tools : media_tools) (volume : Q) (D : Z)
    (HD : 0 <= D) (Hsilent : silent_audio_ok tools = true) :
  (volume == 0 -> chop_background_audio tools volume D = [Ok NoAudioFile])%Q
  /\ (~ (volume == 0)%Q ->
      forall audio_duration, probe_audio tools = Some audio_duration ->
      ((audio_duration <= inject_Z (D + 2))%Q ->
       chop_background_audio tools volume D = [Ok (SilentAudio D)])
      /\ ((inject_Z (D + 2) < audio_duration)%Q ->
          chop_background_audio tools volume D
          = map (fun s =>
                   match extract_audio tools s with
                   | ExtractOk => Ok (ExtractedAudio s D)
                   | _ => Ok (SilentAudio D)
                   end)
                (randint 0 (max_start_time (clamp_video_length D)
                                           (int audio_duration)))
          /\ 0 <= max_start_time (clamp_video_length D) (int audio_duration)
               <= int audio_duration - clamp_video_length D)).
Proof.
  unfold chop_background_audio. split.
  - intros Hv. apply Qeq_bool_iff in Hv. rewrite Hv. reflexivity.
  - intros Hv dur Hp.
    destruct (Qeq_bool volume 0) eqn:Ev;
      [apply Qeq_bool_iff in Ev; contradiction|].
    rewrite Hp. split.
    + intros Hle. apply Qle_bool_iff in Hle. rewrite Hle.
      unfold create_silent_audio. rewrite Hsilent. reflexivity.
    + intros Hlt.
      destruct (Qle_bool dur (inject_Z (D + 2))) eqn:El.
      { apply Qle_bool_iff in El. exfalso. apply (Qlt_not_le _ _ Hlt El). }
      pose proof (int_above (D + 2) dur ltac:(lia) Hlt) as HL.
      pose proof (clamp_positive D) as HV.
      assert (HVL : clamp_video_length D < int dur).
      { unfold clamp_video_length in *. destruct (Z.leb_spec D 0); lia. }
      pose proof (outcomes_non_degenerate (inject_Z D) (inject_Z (int dur))) as E.
      rewrite !int_inject_Z in E. specialize (E HVL). rewrite E. clear E.
      split; [|apply max_start_time_bounds; lia].
      unfold dbind, dret. rewrite flat_map_concat_map, map_map.
      induction (randint 0 (max_start_time (clamp_video_length D) (int dur)))
        as [|s l IH]; [reflexivity|].
      simpl. rewrite <- IH. f_equal.
      unfold or_final_fallback, audio_final_fallback, create_silent_audio.
      rewrite Hsilent. destruct (extract_audio tools s); reflexivity.
Qed.

Lemma chop_background_audio_cases_witness :
  0 <= 30 /\ silent_audio_ok tools_long_source = true
  /\ chop_background_audio tools_long_source 1 30
     = map (fun s => if s <? 40 then Ok (ExtractedAudio s 30)
                     else Ok (SilentAudio 30))
           (randint 0 68).
Proof.
  assert (HD : 0 <= 30) by lia.
  assert (Hs : silent_audio_ok tools_long_source = true) by reflexivity.
  split; [exact HD|]. split; [exact Hs|].
  destruct (chop_background_audio_cases tools_long_source 1 30 HD Hs) as [_ H].
  destruct (H ltac:(discriminate) 100%Q eq_refl) as [_ H1].
  destruct (H1 ltac:(reflexivity)) as [E _].
  rewrite E. apply map_ext. intros s. simpl.
  destruct (s <? 40); [reflexivity|]. destruct (s <? 60); reflexivity.
Defined.

(** C7 as the specification words it fails on the boundary: a source of
    exactly [D + 2] seconds is not shorter than [D + 2], yet the code
    produces the silent placeholder although the extraction would
    succeed. *)
Lemma silent_placeholder_at_exactly_D_plus_2 :
  ~ (12 < inject_Z (10 + 2))%Q
  /\ ~ (1 == 0)%Q
  /\ probe_audio tools_source_of_12_seconds = Some 12%Q
  /\ (forall s, extract_audio tools_source_of_12_seconds s = ExtractOk)
  /\ chop_background_audio tools_source_of_12_seconds 1 10
     = [Ok (SilentAudio 10)].
Proof.
  split; [intros H; discriminate H|].
  split; [intros H; discriminate H|].
  repeat split.
Qed.

End BackgroundFacts.

(** ** Properties of the speech assembly *)

Module TTSFacts.

Import Py TTS Notions.
Open Scope string_scope.

(** *** Strings *)

Lemma last_char_none (s : string) : last_char s = None <-> s = EmptyString.
Proof.
  split; [|intros ->; reflexivity].
  induction s as [|c s IH]; [reflexivity|].
  simpl. destruct s; [discriminate|]. intros H. specialize (IH H). discriminate.
Qed.

Lemma append_nonempty_l (a b : string) : a <> EmptyString -> a ++ b <> EmptyString.
Proof. destruct a; [congruence|discriminate]. Qed.

(** A substitution with a non-empty replacement never empties a text. *)
Lemma sub_nonempty (r : regex) (repl s : string) :
  repl <> EmptyString -> s <> EmptyString -> sub r repl s <> EmptyString.
Proof.
  intros Hr Hs. destruct s as [|c s]; [congruence|].
  unfold sub. simpl. destruct (match_here r None (String c s)) as [[|m]|].
  - now apply append_nonempty_l.
  - now apply append_nonempty_l.
  - discriminate.
Qed.

Lemma replace_nonempty (old new s : string) :
  new <> EmptyString -> s <> EmptyString -> replace old new s <> EmptyString.
Proof.
  intros Hn Hs. destruct s as [|c s]; [congruence|].
  unfold replace. cbn [replace_from].
  destruct (String.prefix old (String c s)).
  - now apply append_nonempty_l.
  - discriminate.
Qed.

Lemma strip_and_expand_empty (body : string) :
  strip_and_expand body = EmptyString <-> body = EmptyString.
Proof.
  split; [|intros ->; reflexivity].
  intros H. destruct body as [|c body]; [reflexivity|]. exfalso. revert H.
  unfold strip_and_expand.
  repeat (first [apply sub_nonempty | apply replace_nonempty]); discriminate.
Qed.

(** Where a pattern has no match, the substitution changes nothing. *)
Lemma sub_from_no_match (r : regex) (repl : string) (s : string) :
  forall prev, finditer_from r prev s 0 = [] -> sub_from r repl prev s 0 = s.
Proof.
  induction s as [|c s IH]; intros prev H; simpl in *.
  - destruct (match_here r prev EmptyString); [discriminate|reflexivity].
  - destruct (match_here r prev (String c s)) as [[|m]|]; try discriminate.
    f_equal. now apply IH.
Qed.

Lemma sub_no_match (r : regex) (repl s : string) :
  no_match r s = true -> sub r repl s = s.
Proof.
  unfold no_match, sub, finditer. intros H. apply sub_from_no_match.
  destruct (finditer_from r None s 0); [reflexivity|discriminate].
Qed.

Lemma replace_absent (old new s : string) :
  contains old s = false -> replace old new s = s.
Proof.
  unfold replace. induction s as [|c s IH]; [reflexivity|].
  intros H. cbn [contains] in H. apply orb_false_iff in H. destruct H as [H1 H2].
  cbn [replace_from]. rewrite H1. f_equal. now apply IH.
Qed.

(** *** [add_periods] *)

Lemma add_periods_body_raises (body : string) :
  add_periods_body body = Raise IndexError <-> body = EmptyString.
Proof.
  unfold add_periods_body. split.
  - destruct (last_char (strip_and_expand body)) eqn:E; [discriminate|].
    intros _. apply strip_and_expand_empty. now apply last_char_none.
  - intros ->. reflexivity.
Qed.

Lemma add_periods_body_returns (body : string) :
  body <> EmptyString -> exists out, add_periods_body body = Ok out.
Proof.
  intros H. unfold add_periods_body.
  destruct (last_char (strip_and_expand body)) eqn:E; [eauto|].
  exfalso. apply H. apply strip_and_expand_empty. now apply last_char_none.
Qed.

Lemma add_periods_loop_outcome (cs : list comment) :
  snd (add_periods_loop cs)
  = if has_empty_body cs then Raise IndexError else Ok tt.
Proof.
  induction cs as [|c cs IH]; [reflexivity|].
  cbn [add_periods_loop has_empty_body existsb].
  destruct (String.eqb_spec (comment_body c) EmptyString) as [E|E].
  - rewrite E. reflexivity.
  - destruct (add_periods_body_returns _ E) as [out ->].
    destruct (add_periods_loop cs) as [cs' r]. simpl in *. exact IH.
Qed.

Lemma has_empty_body_iff (cs : list comment) :
  has_empty_body cs = true
  <-> exists c, In c cs /\ comment_body c = EmptyString.
Proof.
  unfold has_empty_body. rewrite existsb_exists.
  split; intros [c [Hin H]]; exists c; split; auto.
  - now apply String.eqb_eq.
  - now apply String.eqb_eq.
Qed.

(** C10.  [add_periods] raises [IndexError] exactly on the documents that
    hold a comment with an empty [comment_body], and returns on all others;
    on one body, the test of the last character raises exactly for the
    empty string.  [run] fails in the same way, since it starts with
    [add_periods]. *)
Theorem add_periods_fails_exactly_on_empty_body :
  (forall body, add_periods_body body = Raise IndexError <-> body = EmptyString)
  /\ (forall body, body <> EmptyString ->
        exists out, add_periods_body body = Ok out)
  /\ (forall e,
        (exists c, In c (comments (reddit_object e))
                   /\ comment_body c = EmptyString) ->
        snd (add_periods e) = Raise IndexError)
  /\ (forall e,
        (forall c, In c (comments (reddit_object e)) ->
                   comment_body c <> EmptyString) ->
        snd (add_periods e) = Ok tt)
  /\ (forall world settings e,
        (exists c, In c (comments (reddit_object e))
                   /\ comment_body c = EmptyString) ->
        snd (run world settings e) = Raise IndexError).
Proof.
  assert (A : forall e, snd (add_periods e)
              = if has_empty_body (comments (reddit_object e))
                then Raise IndexError else Ok tt).
  { intros e. unfold add_periods.
    pose proof (add_periods_loop_outcome (comments (reddit_object e))) as H.
    destruct (add_periods_loop (comments (reddit_object e))). exact H. }
  split; [exact add_periods_body_raises|].
  split; [exact add_periods_body_returns|].
  split; [|split].
  - intros e H. rewrite A. apply has_empty_body_iff in H. now rewrite H.
  - intros e H. rewrite A.
    destruct (has_empty_body (comments (reddit_object e))) eqn:E; [|reflexivity].
    apply has_empty_body_iff in E. destruct E as [c [Hin Hc]].
    now apply H in Hin.
  - intros world settings e H. apply has_empty_body_iff in H.
    specialize (A e). rewrite H in A.
    unfold run, run_traced. destruct (add_periods e) as [e' r].
    simpl in A. subst r. reflexivity.
Qed.

Lemma add_periods_fails_on_empty_body_witness :
  snd (add_periods (init 5000 document_with_an_empty_comment 50 0))
  = Raise IndexError.
Proof.
  destruct add_periods_fails_exactly_on_empty_body as (_ & _ & H & _).
  apply H. exists {| comment_body := EmptyString |}.
  split; [right; left; reflexivity|reflexivity].
Defined.

(** C8, as the code has it.  When the text that the passes of [add_periods]
    return for a comment body is normalized (it ends with a period and
    holds no URL, line break, token [AI] or [AGI], nor any of the patterns
    that lines 65-68 collapse), passing it through them again leaves it
    unchanged. *)
Theorem add_periods_body_idempotent_on_normalized (body out : string) :
  add_periods_body body = Ok out ->
  normalized out = true ->
  add_periods_body out = Ok out.
Proof.
  intros _ H. unfold normalized in H.
  repeat (apply andb_prop in H; let H' := fresh "N" in destruct H as [H H']).
  rename H into N8.
  apply negb_true_iff in N0, N1, N2, N6.
  unfold add_periods_body, strip_and_expand.
  rewrite (sub_no_match _ _ _ N8), (replace_absent _ _ _ N6),
          (sub_no_match _ _ _ N5), (sub_no_match _ _ _ N4).
  destruct (last_char out) as [c|]; [|discriminate].
  rewrite N3. unfold collapse.
  rewrite (replace_absent _ _ _ N2), (replace_absent _ _ _ N1),
          (replace_absent _ _ _ N0), (sub_no_match _ _ _ N).
  reflexivity.
Qed.

Lemma add_periods_body_idempotent_witness :
  add_periods_body "Is AI near? See www.example.com" = Ok "Is A.I near? See  ."
  /\ normalized "Is A.I near? See  ." = true
  /\ add_periods_body "Is A.I near? See  ." = Ok "Is A.I near? See  .".
Proof.
  assert (H1 : add_periods_body "Is AI near? See www.example.com"
               = Ok "Is A.I near? See  .") by reflexivity.
  assert (H2 : normalized "Is A.I near? See  ." = true) by reflexivity.
  split; [exact H1|]. split; [exact H2|].
  exact (add_periods_body_idempotent_on_normalized _ _ H1 H2).
Defined.

(** C8 as the specification words it fails: the body made of a period, a
    blank, a period, two blanks, a period and a blank is turned into
    [". . ."], and a second application turns that into ["."]. *)
Lemma add_periods_body_not_idempotent :
  add_periods_body ". .  . " = Ok ". . ."
  /\ add_periods_body ". . ." = Ok "."
  /\ ". . ." <> ".".
Proof. repeat split. discriminate. Qed.

(** *** [call_tts] *)

Lemma Qlt_bool_iff (a b : Q) : Qlt_bool a b = true <-> a < b.
Proof.
  unfold Qlt_bool. rewrite negb_true_iff. split.
  - intros H. apply Qnot_le_lt. intros Hle. apply Qle_bool_iff in Hle. congruence.
  - intros H. destruct (Qle_bool b a) eqn:E; [|reflexivity].
    apply Qle_bool_iff in E. exfalso. apply (Qlt_not_le _ _ H E).
Qed.

Lemma Qlt_bool_false_iff (a b : Q) : Qlt_bool a b = false <-> b <= a.
Proof.
  unfold Qlt_bool. rewrite negb_false_iff. apply Qle_bool_iff.
Qed.

Lemma estimate_floor (text : string) : 1 <= estimate text.
Proof.
  unfold estimate. destruct (Qle_bool (estimated_duration text) 1) eqn:E.
  - apply Qle_refl.
  - apply Qlt_le_weak, Qnot_le_lt. intros H.
    apply Qle_bool_iff in H. congruence.
Qed.

(** *** The running total *)

Lemma Qsum_app (l1 l2 : list Q) : Qsum (l1 ++ l2) == Qsum l1 + Qsum l2.
Proof.
  induction l1 as [|a l1 IH]; simpl.
  - ring.
  - rewrite IH. ring.
Qed.

Lemma last_cons_default {A} (l : list A) (a d : A) : last (a :: l) d = last l a.
Proof.
  revert a d. induction l as [|b l IH]; intros a d; [reflexivity|].
  change (last (a :: b :: l) d) with (last (b :: l) d).
  rewrite !IH. reflexivity.
Qed.

Lemma last_app_default {A} (l1 l2 : list A) (d : A) :
  last (l1 ++ l2) d = last l2 (last l1 d).
Proof.
  revert d. induction l1 as [|a l1 IH]; intros d; [reflexivity|].
  rewrite <- app_comm_cons, !last_cons_default. apply IH.
Qed.

Lemma advances_nil (e e' : TTSEngine) :
  max_length e' = max_length e -> max_chars e' = max_chars e ->
  reddit_object e' = reddit_object e ->
  length e' = length e -> last_clip_length e' = last_clip_length e ->
  advances e e' [].
Proof.
  intros H1 H2 H3 H4 H5. repeat split; auto. rewrite H4. simpl. ring.
Qed.

Lemma advances_trans (e1 e2 e3 : TTSEngine) (l1 l2 : list Q) :
  advances e1 e2 l1 -> advances e2 e3 l2 -> advances e1 e3 (l1 ++ l2).
Proof.
  intros (A1 & A2 & A3 & A4 & A5) (B1 & B2 & B3 & B4 & B5).
  repeat split; try congruence.
  - rewrite B4, A4, map_app, Qsum_app. ring.
  - rewrite B5, A5, map_app, last_app_default. reflexivity.
Qed.

Lemma advances_cons (e1 e2 e3 : TTSEngine) (d : Q) (l : list Q) :
  advances e1 e2 [d] -> advances e2 e3 l -> advances e1 e3 (d :: l).
Proof. intros H1 H2. exact (advances_trans e1 e2 e3 [d] l H1 H2). Qed.

Section Budget.

Variable world : collaborators.
Variable settings : settings_t.

Lemma call_tts_advances (e : TTSEngine) (file : filename) (text : string) :
  advances e (call_tts world e file text) [clip_duration world file text].
Proof.
  unfold call_tts, update_durations, advances, counted.
  destruct (Qlt_bool 0 (clip_duration world file text)) eqn:E; simpl;
    rewrite ?E; repeat split; ring.
Qed.

Lemma split_loop_advances (idx : unit_id) (n : nat) (cuts : list string) :
  forall e split_files idy,
    advances e (fst (split_loop world settings idx n e split_files idy cuts))
             (part_clips world settings idx idy cuts).
Proof.
  induction cuts as [|text_cut cuts IH]; intros e split_files idy;
    cbn [split_loop part_clips].
  - now apply advances_nil.
  - destruct (blank (process_text world settings text_cut)); [apply IH|].
    eapply advances_cons; [|apply IH].
    destruct (call_tts_advances e (FPart idx idy)
                (process_text world settings text_cut)) as (A1 & A2 & A3 & A4 & A5).
    repeat split; assumption.
Qed.

Lemma split_post_advances (e : TTSEngine) (text : string) (idx : unit_id) :
  advances e (split_post world settings e text idx)
           (part_clips world settings idx 0 (split_text_of (max_chars e) text)).
Proof.
  unfold split_post.
  pose proof (split_loop_advances idx
                (List.length (split_text_of (max_chars e) text))
                (split_text_of (max_chars e) text)
                (create_silence_mp3 settings e) [] 0%nat) as H.
  change (max_chars (create_silence_mp3 settings e)) with (max_chars e).
  destruct (split_loop world settings idx _ (create_silence_mp3 settings e) [] 0
              (split_text_of (max_chars e) text)) as [e1 files].
  destruct H as (A1 & A2 & A3 & A4 & A5). repeat split; assumption.
Qed.

Lemma say_comment_advances (e : TTSEngine) (idx : nat) (body : string) :
  advances e (say_comment world settings e idx body)
           (unit_clips world settings (max_chars e) idx body).
Proof.
  unfold say_comment, unit_clips.
  destruct (Nat.ltb (max_chars e) (String.length body)).
  - apply split_post_advances.
  - apply call_tts_advances.
Qed.

(** What the comment loop leaves behind.  When the [for] runs out, every
    clip of every comment is in the total.  When it breaks, the comments
    before the one at which it stopped ([pre]) were all synthesized, their
    total exceeds [max_length], the length of the last clip has been
    subtracted, and the returned index is that of the last comment of
    [pre]. *)
Lemma comments_loop_spec (cs : list comment) :
  forall e idx e' j x,
    comments_loop world settings e idx cs = (e', j, x) ->
    max_length e' = max_length e
    /\ reddit_object e' = reddit_object e
    /\ match x with
       | Exhausted =>
           j = Nat.pred (idx + List.length cs)
           /\ advances e e' (clips_of world settings (max_chars e) idx cs)
       | Broke =>
           exists pre c post,
             cs = (pre ++ c :: post)%list
             /\ (1 < idx + List.length pre)%nat
             /\ j = (idx + List.length pre - 1)%nat
             /\ (let clips := map counted
                                (clips_of world settings (max_chars e) idx pre) in
                 max_length e < length e + Qsum clips
                 /\ last_clip_length e' = last clips (last_clip_length e)
                 /\ length e' == length e + Qsum clips - last_clip_length e')
       end.
Proof.
  induction cs as [|c cs IH]; intros e idx e' j x H; cbn [comments_loop] in H.
  - injection H as <- <- <-. split; [reflexivity|]. split; [reflexivity|].
    split; [now rewrite Nat.add_0_r|]. now apply advances_nil.
  - destruct (Qlt_bool (max_length e) (length e) && Nat.ltb 1 idx) eqn:G.
    + injection H as <- <- <-. split; [reflexivity|]. split; [reflexivity|].
      apply andb_prop in G. destruct G as [G1 G2].
      apply Qlt_bool_iff in G1. apply Nat.ltb_lt in G2.
      exists [], c, cs. simpl. rewrite Nat.add_0_r.
      repeat split; auto.
      * rewrite Qplus_0_r. exact G1.
      * ring.
    + pose proof (say_comment_advances e idx (comment_body c)) as A.
      specialize (IH _ _ _ _ _ H). destruct IH as (M & R & IH).
      destruct A as (A1 & A2 & A3 & A4 & A5).
      split; [congruence|]. split; [congruence|].
      destruct x.
      * destruct IH as [-> IH]. split; [simpl; f_equal; lia|].
        cbn [clips_of]. eapply advances_trans; [|rewrite <- A2; exact IH].
        repeat split; assumption.
      * destruct IH as (pre & c' & post & -> & Hidx & -> & Hlt & Hlast & Hlen).
        exists (c :: pre), c', post. simpl List.length.
        split; [reflexivity|]. split; [lia|]. split; [lia|].
        cbn [clips_of]. rewrite A2 in *. rewrite map_app, Qsum_app.
        rewrite last_app_default, <- A5.
        split; [|split].
        -- rewrite A1 in Hlt. rewrite A4 in Hlt.
           rewrite Qplus_assoc. exact Hlt.
        -- exact Hlast.
        -- rewrite Hlen, A4. ring.
Qed.


End Budget.


(** [run] in the comment mode, from a freshly built engine: the title is
    the first clip of the total, and the comment loop carries on from it. *)
Lemma run_non_story_spec (world : collaborators) (settings : settings_t)
    (mc : nat) (doc : reddit_object_t) (ml lc : Q)
    (e' : TTSEngine) (T : Q) (j : nat) (x : loop_exit) :
  storymode settings = false ->
  run_traced world settings (init mc doc ml lc)
  = (e', Ok (T, j, x)) ->
  let cs := comments (reddit_object e') in
  let title := counted (title_clip world settings (thread_title doc)) in
  match x with
  | Exhausted =>
      j = Nat.pred (List.length cs)
      /\ T == title + Qsum (map counted (clips_of world settings mc 0 cs))
  | Broke =>
      exists pre c post,
        cs = (pre ++ c :: post)%list
        /\ (1 < List.length pre)%nat
        /\ j = (List.length pre - 1)%nat
        /\ (let clips := map counted (clips_of world settings mc 0 pre) in
            ml < title + Qsum clips
            /\ last_clip_length e' = last clips title
            /\ T == title + Qsum clips - last_clip_length e')
  end.
Proof.
  intros Hs H. unfold run_traced, add_periods in H.
  destruct (add_periods_loop (comments (reddit_object
              (init mc doc ml lc)))) as [cs0 [[]|err]];
    [|discriminate].
  rewrite Hs in H.
  set (e0 := with_comments (init mc doc ml lc) cs0) in *.
  set (e1 := call_tts world e0 FTitle
               (process_text world settings (thread_title (reddit_object e0)))) in *.
  destruct (call_tts_advances world e0 FTitle
              (process_text world settings (thread_title (reddit_object e0))))
    as (A1 & A2 & A3 & A4 & A5).
  fold e1 in A1, A2, A3, A4, A5.
  destruct (comments_loop world settings e1 0 (comments (reddit_object e1)))
    as [[e2 j2] x2] eqn:L.
  injection H as -> <- -> ->.
  apply comments_loop_spec in L. destruct L as (M & R & L).
  rewrite R. rewrite A2 in L. change (max_chars e0) with mc in L.
  change (thread_title (reddit_object e0)) with (thread_title doc) in A4, A5.
  change (length e0) with 0 in A4. simpl in A4, A5.
  fold (title_clip world settings (thread_title doc)) in A4, A5.
  destruct x.
  - destruct L as [-> (B1 & B2 & B3 & B4 & B5)]. split; [reflexivity|].
    rewrite B4, A4. ring.
  - destruct L as (pre & c & post & E & Hidx & -> & Hlt & Hlast & Hlen).
    exists pre, c, post. split; [exact E|]. split; [exact Hidx|].
    split; [reflexivity|]. rewrite A1 in Hlt. change (max_length e0) with ml in Hlt.
    rewrite A5 in Hlast. split; [|split].
    + rewrite A4 in Hlt. rewrite Qplus_0_l, Qplus_0_r in Hlt. exact Hlt.
    + exact Hlast.
    + rewrite Hlen, A4. ring.
Qed.




Lemma counted_pos (d v : Q) : d == v -> 0 < v -> counted d = d.
Proof.
  intros E H. unfold counted.
  assert (G : Qlt_bool 0 d = true) by (apply Qlt_bool_iff; now rewrite E).
  now rewrite G.
Qed.

(** One clip of a known duration. *)
Lemma call_tts_known (world : collaborators) (e : TTSEngine) (file : filename)
    (text : string) (len v : Q) :
  length e == len ->
  clip_duration world file text == v ->
  let e1 := call_tts world e file text in
  length e1 == len + counted v
  /\ last_clip_length e1 == counted v
  /\ max_length e1 = max_length e
  /\ max_chars e1 = max_chars e
  /\ synthesized e1 = (synthesized e ++ [(file, text)])%list.
Proof.
  intros Hl Hd e1.
  destruct (call_tts_advances world e file text) as (A1 & A2 & A3 & A4 & A5).
  fold e1 in A1, A2, A3, A4,A5.
  assert (C : counted (clip_duration world file text) == counted v).
  { destruct (Qlt_le_dec 0 v) as [P|P].
    - rewrite (counted_pos _ _ Hd P), (counted_pos v v (Qeq_refl v) P). exact Hd.
    - assert (Qlt_bool 0 (clip_duration world file text) = false) as G1.
      { apply Qlt_bool_false_iff. now rewrite Hd. }
      assert (Qlt_bool 0 v = false) as G2 by now apply Qlt_bool_false_iff.
      unfold counted. rewrite G1, G2. reflexivity. }
  split; [|split; [|split; [|split]]]; auto.
  - rewrite A4, Hl. simpl. rewrite C. ring.
  - rewrite A5. simpl. exact C.
  - unfold e1, call_tts, update_durations.
    destruct (Qlt_bool 0 (clip_duration world file text)); reflexivity.
Qed.

Lemma comments_loop_continue (world : collaborators) (settings : settings_t)
    (e : TTSEngine) (idx : nat) (c : comment) (cs : list comment) :
  (length e <= max_length e \/ (idx <= 1)%nat) ->
  (String.length (comment_body c) <= max_chars e)%nat ->
  comments_loop world settings e idx (c :: cs)
  = comments_loop world settings
      (call_tts world e (FWhole (UIdx idx))
         (process_text world settings (comment_body c))) (S idx) cs.
Proof.
  intros H Hlen. cbn [comments_loop].
  assert (G : Qlt_bool (max_length e) (length e) && Nat.ltb 1 idx = false).
  { apply andb_false_iff. destruct H as [H|H].
    - left. now apply Qlt_bool_false_iff.
    - right. now apply Nat.ltb_ge. }
  rewrite G. unfold say_comment.
  apply Nat.ltb_ge in Hlen. now rewrite Hlen.
Qed.

Lemma comments_loop_break (world : collaborators) (settings : settings_t)
    (e : TTSEngine) (idx : nat) (c : comment) (cs : list comment) :
  max_length e < length e -> (1 < idx)%nat ->
  comments_loop world settings e idx (c :: cs)
  = (with_budget e (length e - last_clip_length e) (last_clip_length e),
     (idx - 1)%nat, Broke).
Proof.
  intros H1 H2. cbn [comments_loop].
  apply Qlt_bool_iff in H1. apply Nat.ltb_lt in H2. now rewrite H1, H2.
Qed.

(** C3, as the code has it.  Four comments whose clips measure 5, 5, 5 and
    40 seconds, a title that counts for 0 seconds and [max_length = 10]:
    the test of line 92 first succeeds at the fourth comment (the total is
    then 15), the third clip is subtracted, and [run] returns the total 10
    with the index 2.  The clips of the title and of the comments 0, 1 and
    2 were synthesized; the total is that of the comments 0 and 1. *)
Theorem scenario_5_5_5_40_returns_10_and_2
    (world : collaborators) (settings : settings_t) (mc : nat)
    (title b0 b1 b2 b3 n0 n1 n2 n3 : string) (lc : Q) :
  storymode settings = false ->
  add_periods_body b0 = Ok n0 -> add_periods_body b1 = Ok n1 ->
  add_periods_body b2 = Ok n2 -> add_periods_body b3 = Ok n3 ->
  (String.length n0 <= mc)%nat -> (String.length n1 <= mc)%nat ->
  (String.length n2 <= mc)%nat ->
  title_clip world settings title == 0 ->
  clip_duration world (FWhole (UIdx 0)) (process_text world settings n0) == 5 ->
  clip_duration world (FWhole (UIdx 1)) (process_text world settings n1) == 5 ->
  clip_duration world (FWhole (UIdx 2)) (process_text world settings n2) == 5 ->
  clip_duration world (FWhole (UIdx 3)) (process_text world settings n3) == 40 ->
  exists e' T,
    run world settings (init mc (document title [b0; b1; b2; b3]) 10 lc)
    = (e', Ok (T, 2%nat))
    /\ T == 10
    /\ map fst (synthesized e')
       = [FTitle; FWhole (UIdx 0); FWhole (UIdx 1); FWhole (UIdx 2)].
Proof.
  intros Hs N0 N1 N2 N3 L0 L1 L2 Dt D0 D1 D2 _.
  unfold run, run_traced, add_periods.
  cbn [init document comments reddit_object map add_periods_loop comment_body].
  rewrite N0, N1, N2, N3.
  cbn [with_comments reddit_object thread_title init document]. rewrite Hs.
  set (e0 := with_comments (init mc (document title [b0; b1; b2; b3]) 10 lc)
               [ {| comment_body := n0 |}; {| comment_body := n1 |};
                 {| comment_body := n2 |}; {| comment_body := n3 |} ]).
  destruct (call_tts_known world e0 FTitle (process_text world settings title) 0 0
              (Qeq_refl _) Dt) as (A1 & A2 & A3 & A4 & A5).
  assert (Hc : comments (reddit_object
                 (call_tts world e0 FTitle (process_text world settings title)))
               = [ {| comment_body := n0 |}; {| comment_body := n1 |};
                   {| comment_body := n2 |}; {| comment_body := n3 |} ]).
  { unfold call_tts, update_durations.
    destruct (Qlt_bool 0 _); reflexivity. }
  set (e1 := call_tts world e0 FTitle (process_text world settings title)) in *.
  rewrite Hc.
  change (max_length e0) with 10 in A3. change (max_chars e0) with mc in A4.
  rewrite comments_loop_continue; [|right; lia|rewrite A4; exact L0].
  cbn [comment_body].
  destruct (call_tts_known world e1 (FWhole (UIdx 0)) (process_text world settings n0)
              _ 5 A1 D0) as (B1 & B2 & B3 & B4 & B5).
  set (e2 := call_tts world e1 (FWhole (UIdx 0)) (process_text world settings n0)) in *.
  rewrite comments_loop_continue; [|right; lia|rewrite B4, A4; exact L1].
  cbn [comment_body].
  destruct (call_tts_known world e2 (FWhole (UIdx 1)) (process_text world settings n1)
              _ 5 B1 D1) as (C1 & C2 & C3 & C4 & C5).
  set (e3 := call_tts world e2 (FWhole (UIdx 1)) (process_text world settings n1)) in *.
  rewrite comments_loop_continue;
    [|left; rewrite C1, C3, B3, A3; discriminate|rewrite C4, B4, A4; exact L2].
  cbn [comment_body].
  destruct (call_tts_known world e3 (FWhole (UIdx 2)) (process_text world settings n2)
              _ 5 C1 D2) as (E1 & E2 & E3 & E4 & E5).
  set (e4 := call_tts world e3 (FWhole (UIdx 2)) (process_text world settings n2)) in *.
  rewrite comments_loop_break; [|rewrite E1, E3, C3, B3, A3; reflexivity|lia].
  eexists. eexists. split; [reflexivity|]. split.
  - cbn [length with_budget]. rewrite E1, E2. reflexivity.
  - cbn [synthesized with_budget]. rewrite E5, C5, B5, A5. reflexivity.
Qed.

Lemma scenario_5_5_5_40_witness :
  exists e' T,
    run (plain_world (durations_5_5_5_40 0)) comment_mode
        (init 5000 four_comments 10 0)
    = (e', Ok (T, 2%nat))
    /\ T == 10
    /\ map fst (synthesized e')
       = [FTitle; FWhole (UIdx 0); FWhole (UIdx 1); FWhole (UIdx 2)].
Proof.
  apply (scenario_5_5_5_40_returns_10_and_2
           (plain_world (durations_5_5_5_40 0)) comment_mode 5000
           "A question"
           "First answer." "Second answer." "Third answer." "Fourth answer."
           "First answer." "Second answer." "Third answer." "Fourth answer." 0);
    first [reflexivity | apply Nat.leb_le; reflexivity].
Defined.

(** C3 as the specification words it fails: the index that [run] returns
    in this scenario is 2, not 1. *)
Lemma scenario_5_5_5_40_index_is_not_1 :
  snd (run (plain_world (durations_5_5_5_40 0)) comment_mode
           (init 5000 four_comments 10 0))
  = Ok (10, 2%nat)
  /\ 2%nat <> 1%nat.
Proof. split; [vm_compute; reflexivity|discriminate]. Qed.



(** *** [split_post] *)

Section SplitPost.

Variable world : collaborators.
Variable settings : settings_t.

Lemma call_tts_keeps_files (e : TTSEngine) (file : filename) (text : string) :
  concat_log (call_tts world e file text) = concat_log e
  /\ silence_mp3 (call_tts world e file text) = silence_mp3 e.
Proof.
  unfold call_tts, update_durations.
  destruct (Qlt_bool 0 (clip_duration world file text)); split; reflexivity.
Qed.

(** Every clip that the loop synthesizes is followed by one concatenation,
    and each of them reads the same [list.txt]. *)
Lemma split_loop_concat_log (idx : unit_id) (n : nat) (cuts : list string) :
  forall e split_files idy,
    let e' := fst (split_loop world settings idx n e split_files idy cuts) in
    concat_log e'
    = (concat_log e
       ++ repeat (idx, list_txt idx n)
            (List.length (part_clips world settings idx idy cuts)))%list
    /\ silence_mp3 e' = silence_mp3 e.
Proof.
  induction cuts as [|text_cut cuts IH]; intros e split_files idy;
    cbn [split_loop part_clips].
  - simpl. now rewrite app_nil_r.
  - destruct (blank (process_text world settings text_cut)); [apply IH|].
    cbn zeta. specialize (IH
      (with_concat (call_tts world e (FPart idx idy)
                      (process_text world settings text_cut))
         (concat_log (call_tts world e (FPart idx idy)
                        (process_text world settings text_cut))
          ++ [(idx, list_txt idx n)])%list)
      (split_files ++ [FPart idx idy])%list (S idy)).
    cbn zeta in IH. destruct IH as [IH1 IH2]. rewrite IH1, IH2.
    destruct (call_tts_keeps_files e (FPart idx idy)
                (process_text world settings text_cut)) as [K1 K2].
    cbn [with_concat concat_log silence_mp3]. rewrite K1, K2.
    split; [|reflexivity].
    rewrite <- app_assoc. reflexivity.
Qed.

Lemma list_txt_silences (idx : unit_id) (n : nat) :
  List.length (filter is_silence (list_txt idx n)) = 1%nat.
Proof.
  unfold list_txt. rewrite filter_app, length_app. simpl.
  assert (E : filter is_silence (map (EPart idx) (seq 0 n)) = []).
  { induction (seq 0 n) as [|a l IH]; [reflexivity|exact IH]. }
  rewrite E. reflexivity.
Qed.

Lemma list_txt_duration (idx : unit_id) (n : nat) (part : nat -> Q) (silence : Q) :
  concat_duration part silence (list_txt idx n)
  == Qsum (map part (seq 0 n)) + silence.
Proof.
  unfold concat_duration, list_txt. rewrite map_app, Qsum_app, map_map.
  rewrite (map_ext _ part) by reflexivity.
  simpl. ring.
Qed.

End SplitPost.

(** C4, as the code has it.  [split_post] writes the silence file with the
    configured duration; every concatenation that it runs (one after each
    chunk that is not blank) reads a [list.txt] that names the part file of
    every element of [split_text], in order, and then the silence file
    once: no silence lies between two chunks, and the duration of the
    listed files is the sum of the parts plus one silence.  The text of 28
    sentences of 100 characters (2800 characters), with [max_chars = 500],
    is split into 6 chunks, which are listed before a single silence. *)
Theorem split_post_lists_parts_then_one_silence
    (world : collaborators) (settings : settings_t)
    (e : TTSEngine) (text : string) (idx : unit_id) :
  let split_text := split_text_of (max_chars e) text in
  let n := List.length split_text in
  let spoken := List.length (part_clips world settings idx 0 split_text) in
  let e' := split_post world settings e text idx in
  concat_log e' = (concat_log e ++ repeat (idx, list_txt idx n) spoken)%list
  /\ silence_mp3 e' = Some (silence_duration settings)
  /\ list_txt idx n = (map (EPart idx) (seq 0 n) ++ [ESilence])%list
  /\ List.length (filter is_silence (list_txt idx n)) = 1%nat
  /\ (forall part silence,
        concat_duration part silence (list_txt idx n)
        == Qsum (map part (seq 0 n)) + silence)
  /\ String.length text_of_28_sentences = 2800%nat
  /\ map String.length (split_text_of 500 text_of_28_sentences)
     = [500; 500; 500; 500; 500; 300]%nat
  /\ list_txt idx 6
     = [EPart idx 0; EPart idx 1; EPart idx 2; EPart idx 3; EPart idx 4;
        EPart idx 5; ESilence].
Proof.
  intros split_text n spoken e'.
  pose proof (split_loop_concat_log world settings idx n split_text
                (create_silence_mp3 settings e) [] 0%nat) as H.
  cbn zeta in H. destruct H as [H1 H2].
  split; [|split; [|split; [|split; [|split; [|split; [|split]]]]]].
  - unfold e', split_post. fold split_text. fold n.
    destruct (split_loop world settings idx n (create_silence_mp3 settings e)
                [] 0 split_text) as [e1 files].
    exact H1.
  - unfold e', split_post. fold split_text. fold n.
    destruct (split_loop world settings idx n (create_silence_mp3 settings e)
                [] 0 split_text) as [e1 files].
    exact H2.
  - reflexivity.
  - apply list_txt_silences.
  - intros part silence. apply list_txt_duration.
  - vm_compute. reflexivity.
  - vm_compute. reflexivity.
  - reflexivity.
Qed.

(** C4 as the specification words it fails.  For the 2800 characters made
    of 28 sentences of 100 characters and [max_chars = 500], the
    concatenation reads the six parts and then one silence: the entry after
    the first part is the second part, there is one silence and not five,
    and with parts of 10 seconds and a silence of 1 second the listed files
    last 61 seconds, not 65.  Another text of 2800 characters, made of 7
    sentences of 400 characters, is split into 7 chunks. *)
Lemma split_post_appends_a_single_silence :
  let e' := split_post world_without_probes comment_mode
              (init 500 four_comments 10 0) text_of_28_sentences (UIdx 0) in
  let listing := snd (last (concat_log e') (UPost, [])) in
  String.length text_of_28_sentences = 2800%nat
  /\ List.length (split_text_of 500 text_of_28_sentences) = 6%nat
  /\ listing = [EPart (UIdx 0) 0; EPart (UIdx 0) 1; EPart (UIdx 0) 2;
                EPart (UIdx 0) 3; EPart (UIdx 0) 4; EPart (UIdx 0) 5; ESilence]
  /\ List.length (filter is_silence listing) = 1%nat
  /\ 1%nat <> 5%nat
  /\ concat_duration (fun _ => 10) 1 listing == 61
  /\ ~ 61 == 6 * 10 + 5 * 1
  /\ String.length text_of_7_sentences = 2800%nat
  /\ List.length (split_text_of 500 text_of_7_sentences) = 7%nat.
Proof.
  cbv zeta.
  split; [vm_compute; reflexivity|]. split; [vm_compute; reflexivity|].
  split; [vm_compute; reflexivity|]. split; [vm_compute; reflexivity|].
  split; [discriminate|]. split; [vm_compute; reflexivity|].
  split; [intros H; discriminate H|].
  split; vm_compute; reflexivity.
Qed.

End TTSFacts.

(** ** Further properties of the background module *)

Module BackgroundMore.

Import Background Notions BackgroundFacts.
Open Scope Z_scope.

Lemma window_start_nonneg (video_length length_of_clip : Q) (s e : Z) :
  In (Ok (s, e)) (get_start_and_end_times video_length length_of_clip) -> 0 <= s.
Proof.
  intros Hin.
  set (D := clamp_video_length (int video_length)).
  set (L := int length_of_clip).
  pose proof (clamp_positive (int video_length)) as HD. fold D in HD.
  destruct (Z.le_gt_cases L D) as [H|H].
  - rewrite (outcomes_degenerate video_length length_of_clip H) in Hin.
    fold L in Hin. destruct Hin as [Hin|[]].
    destruct (L >? 0); [|discriminate]. injection Hin as <- _. lia.
  - rewrite (outcomes_non_degenerate video_length length_of_clip H) in Hin.
    fold D L in Hin. apply in_map_iff in Hin. destruct Hin as [s' [E Hs]].
    injection E as <- _. apply in_randint in Hs. lia.
Qed.

(** X1.  [get_start_and_end_times] always has an outcome; it raises exactly
    when the source, truncated to integer seconds, has no positive length,
    and the error is then the one of line 70: the error of line 104 is
    never raised. *)
Theorem selector_raises_only_without_source (video_length length_of_clip : Q) :
  get_start_and_end_times video_length length_of_clip <> []
  /\ (forall e,
        In (Raise e) (get_start_and_end_times video_length length_of_clip)
        <-> int length_of_clip <= 0 /\ e = SourceTooShort).
Proof.
  split; [apply get_start_and_end_times_total|].
  intros e.
  set (D := clamp_video_length (int video_length)).
  set (L := int length_of_clip).
  pose proof (clamp_positive (int video_length)) as HD. fold D in HD.
  destruct (Z.le_gt_cases L D) as [H|H].
  - rewrite (outcomes_degenerate video_length length_of_clip H). fold L.
    destruct (Z.gtb_spec L 0); split.
    + intros [Hin|[]]. discriminate.
    + intros [Hle _]. lia.
    + intros [Hin|[]]. injection Hin as <-. split; [lia|reflexivity].
    + intros [_ ->]. left. reflexivity.
  - rewrite (outcomes_non_degenerate video_length length_of_clip H). split.
    + intros Hin. apply in_map_iff in Hin. destruct Hin as [s [E _]]. discriminate.
    + intros [Hle _]. lia.
Qed.

Lemma chop_background_audio_nonempty (tools : media_tools) (volume : Q) (D : Z) :
  chop_background_audio tools volume D <> [].
Proof.
  unfold chop_background_audio.
  destruct (Qeq_bool volume 0); [discriminate|].
  destruct (probe_audio tools) as [dur|]; [|discriminate].
  destruct (Qle_bool dur (inject_Z (D + 2))); [discriminate|].
  destruct (get_start_and_end_times (inject_Z D) (inject_Z (int dur)))
    as [|o l] eqn:E.
  - exfalso. revert E. apply get_start_and_end_times_total.
  - unfold dbind. simpl. destruct o as [[s e]|x]; [|discriminate].
    destruct (extract_audio tools s); discriminate.
Qed.

(** X2.  When the silent placeholder can be produced, the audio path of
    [chop_background] never raises, whatever the requested length, the
    probe and the extraction do: every outcome is a result, which is "no
    file" exactly for a zero volume, and otherwise a file of the requested
    length, either the placeholder or an extraction that left a usable file
    and starts at a non-negative time. *)
Theorem audio_path_never_raises
    (tools : media_tools) (volume : Q) (D : Z)
    (Hsilent : silent_audio_ok tools = true) :
  chop_background_audio tools volume D <> []
  /\ forall o, In o (chop_background_audio tools volume D) ->
       exists f, o = Ok f
         /\ (f = NoAudioFile <-> (volume == 0)%Q)
         /\ match f with
            | NoAudioFile => True
            | SilentAudio d => d = D
            | ExtractedAudio s d =>
                d = D /\ 0 <= s /\ extract_audio tools s = ExtractOk
            end.
Proof.
  split; [apply chop_background_audio_nonempty|].
  intros o Ho. unfold chop_background_audio in Ho.
  assert (Hf : audio_final_fallback tools D = Ok (SilentAudio D)).
  { unfold audio_final_fallback, create_silent_audio. now rewrite Hsilent. }
  assert (Hc : or_final_fallback tools D (create_silent_audio tools D)
               = Ok (SilentAudio D)).
  { unfold or_final_fallback, create_silent_audio. now rewrite Hsilent. }
  destruct (Qeq_bool volume 0) eqn:Ev.
  - apply Qeq_bool_iff in Ev. destruct Ho as [<-|[]].
    exists NoAudioFile. repeat split; auto.
  - assert (Hv : ~ (volume == 0)%Q).
    { intros Hq. apply Qeq_bool_iff in Hq. congruence. }
    assert (S : forall d, exists f, Ok (SilentAudio d) = Ok f
                /\ (f = NoAudioFile <-> (volume == 0)%Q)
                /\ match f with
                   | NoAudioFile => True
                   | SilentAudio d' => d' = d
                   | ExtractedAudio s d' =>
                       d' = d /\ 0 <= s /\ extract_audio tools s = ExtractOk
                   end).
    { intros d. exists (SilentAudio d). split; [reflexivity|].
      split; [|reflexivity]. split; [discriminate|contradiction]. }
    destruct (probe_audio tools) as [dur|].
    + destruct (Qle_bool dur (inject_Z (D + 2))).
      * destruct Ho as [<-|[]]. rewrite Hc. apply S.
      * unfold dbind in Ho. apply in_flat_map in Ho.
        destruct Ho as [times [Ht Ho]].
        destruct times as [[s e]|x].
        -- destruct (extract_audio tools s) eqn:Ex; destruct Ho as [<-|[]].
           ++ exists (ExtractedAudio s D). split; [reflexivity|].
              split; [split; [discriminate|contradiction]|].
              split; [reflexivity|]. split; [|exact Ex].
              eapply window_start_nonneg; exact Ht.
           ++ rewrite Hc. apply S.
           ++ rewrite Hf. apply S.
        -- destruct Ho as [<-|[]]. rewrite Hf. apply S.
    + destruct Ho as [<-|[]]. rewrite Hf. apply S.
Qed.

Lemma audio_path_never_raises_witness :
  silent_audio_ok tools_long_source = true
  /\ forall o, In o (chop_background_audio tools_long_source 1 (-3)) ->
       exists f, o = Ok f.
Proof.
  assert (Hs : silent_audio_ok tools_long_source = true) by reflexivity.
  split; [exact Hs|]. intros o Ho.
  destruct (audio_path_never_raises tools_long_source 1 (-3) Hs) as [_ H].
  destruct (H o Ho) as [f [E _]]. exists f. exact E.
Defined.

(** X3.  The video path of [chop_background] on a source that is longer
    than [D + 2] seconds, for a requested length [D >= 0]: the start is
    drawn as the selector draws it, and for each start the fast extraction
    decides.  If it leaves a usable file, that is the result; if it exits
    with an error, MoviePy is tried on [start .. start + D] and its failure
    is fatal; if it returns normally but leaves an empty or invalid file,
    the function fails without trying MoviePy. *)
Theorem video_path_cases
    (tools : media_tools) (D : Z) (video_duration : Q)
    (HD : 0 <= D)
    (Hprobe : probe_video tools = Some video_duration)
    (Hlong : (inject_Z (D + 2) < video_duration)%Q) :
  chop_background_video tools D
  = map (fun s =>
           match extract_video tools s with
           | ExtractOk => Ok (ExtractedVideo s D)
           | ExtractProcessError =>
               if moviepy_extract_video tools s (s + D)
               then Ok (MoviePyVideo s (s + D))
               else Raise AllVideoMethodsFailed
           | ExtractEmptyFile => Raise GeneratedFileInvalid
           end)
        (randint 0 (max_start_time (clamp_video_length D) (int video_duration))).
Proof.
  unfold chop_background_video. rewrite Hprobe.
  destruct (Qle_bool video_duration (inject_Z (D + 2))) eqn:El.
  { apply Qle_bool_iff in El. exfalso. apply (Qlt_not_le _ _ Hlong El). }
  pose proof (int_above (D + 2) video_duration ltac:(lia) Hlong) as HL.
  pose proof (clamp_positive D) as HV.
  assert (HVL : clamp_video_length D < int video_duration).
  { unfold clamp_video_length in *. destruct (Z.leb_spec D 0); lia. }
  pose proof (outcomes_non_degenerate (inject_Z D)
                (inject_Z (int video_duration))) as E.
  rewrite !int_inject_Z in E. specialize (E HVL). rewrite E. clear E.
  unfold dbind, dret. rewrite flat_map_concat_map, map_map.
  induction (randint 0 (max_start_time (clamp_video_length D)
                          (int video_duration))) as [|s l IH];
    [reflexivity|].
  simpl. rewrite <- IH. f_equal.
  destruct (extract_video tools s); [reflexivity| |reflexivity].
  destruct (moviepy_extract_video tools s (s + D)); reflexivity.
Qed.

Lemma video_path_cases_witness :
  chop_background_video tools_long_source 30
  = map (fun s => Ok (ExtractedVideo s 30)) (randint 0 68).
Proof.
  rewrite (video_path_cases tools_long_source 30 100%Q);
    [reflexivity|lia|reflexivity|reflexivity].
Defined.

(** X4.  Without a usable video source [chop_background] fails, whatever
    the audio path did: when the probe of the video fails, or reports at
    most [D + 2] seconds, every outcome of the function is an error. *)
Theorem no_video_is_fatal
    (tools : media_tools) (volume : Q) (D : Z)
    (Hvideo : probe_video tools = None
              \/ exists dur, probe_video tools = Some dur
                             /\ (dur <= inject_Z (D + 2))%Q) :
  chop_background tools volume D <> []
  /\ forall o, In o (chop_background tools volume D) -> exists e, o = Raise e.
Proof.
  assert (V : exists e, chop_background_video tools D = [Raise e]).
  { unfold chop_background_video. destruct Hvideo as [->|[dur [-> Hle]]].
    - eexists. reflexivity.
    - apply Qle_bool_iff in Hle. rewrite Hle. eexists. reflexivity. }
  destruct V as [ev V]. unfold chop_background. rewrite V. split.
  - pose proof (chop_background_audio_nonempty tools volume D) as N.
    destruct (chop_background_audio tools volume D) as [|a l]; [congruence|].
    unfold dbind. simpl. destruct a; discriminate.
  - intros o Ho. unfold dbind in Ho. apply in_flat_map in Ho.
    destruct Ho as [a [_ Ho]]. destruct a as [af|e].
    + simpl in Ho. destruct Ho as [<-|[]]. eauto.
    + destruct Ho as [<-|[]]. eauto.
Qed.

Lemma no_video_is_fatal_witness :
  let tools :=
    {| probe_audio := Some 100%Q; extract_audio := fun _ => ExtractOk;
       silent_audio_ok := true; probe_video := Some 32%Q;
       extract_video := fun _ => ExtractOk;
       moviepy_extract_video := fun _ _ => true |} in
  (probe_video tools = Some 32%Q /\ (32 <= inject_Z (30 + 2))%Q)
  /\ chop_background tools 1 30 <> []
  /\ (forall o, In o (chop_background tools 1 30) -> exists e, o = Raise e).
Proof.
  intros tools.
  assert (H : probe_video tools = Some 32%Q /\ (32 <= inject_Z (30 + 2))%Q).
  { split; [reflexivity|]. intros C. discriminate C. }
  split; [exact H|].
  apply no_video_is_fatal. right. exists 32%Q. exact H.
Defined.

End BackgroundMore.

(** ** Properties of the background catalog *)

Module CatalogFacts.

Import Py Catalog MoreNotions.
Open Scope string_scope.

Lemma lookup_in (k : string) (e : entry) (d : dict) :
  lookup k d = Some e -> In (k, e) d.
Proof.
  induction d as [|[k' e'] d IH]; simpl; [discriminate|].
  destruct (String.eqb_spec k k') as [->|N].
  - intros [= ->]. now left.
  - intros H. right. now apply IH.
Qed.

Lemma in_lookup (k : string) (e : entry) (d : dict) :
  NoDup (map fst d) -> In (k, e) d -> lookup k d = Some e.
Proof.
  induction d as [|[k' e'] d IH]; simpl; intros N H; [contradiction|].
  inversion N as [|? ? Hnot N']; subst.
  destruct H as [[= -> ->]|H].
  - now rewrite String.eqb_refl.
  - destruct (String.eqb_spec k k') as [->|_]; [|now apply IH].
    exfalso. apply Hnot. apply in_map_iff. exists (k', e). split; auto.
Qed.

Lemma lookup_none (k : string) (d : dict) :
  lookup k d = None <-> ~ In k (map fst d).
Proof.
  induction d as [|[k' e'] d IH]; simpl.
  - split; auto.
  - destruct (String.eqb_spec k k') as [->|N].
    + split; [discriminate|]. intros H. exfalso. apply H. now left.
    + rewrite IH. split.
      * intros H [E|E]; [congruence|contradiction].
      * intros H E. apply H. now right.
Qed.

Lemma keys_update (k : string) (e : entry) (d : dict) :
  map fst (update k e d) = map fst d.
Proof.
  induction d as [|[k' e'] d IH]; [reflexivity|]. simpl.
  destruct (String.eqb k k'); simpl; [reflexivity|]. now rewrite IH.
Qed.

Lemma lookup_update_same (k : string) (e e0 : entry) (d : dict) :
  lookup k d = Some e0 -> lookup k (update k e d) = Some e.
Proof.
  induction d as [|[k' e'] d IH]; simpl; [discriminate|].
  destruct (String.eqb_spec k k') as [->|N]; simpl.
  - now rewrite String.eqb_refl.
  - intros H. destruct (String.eqb_spec k k'); [contradiction|]. now apply IH.
Qed.

Lemma lookup_update_other (k k0 : string) (e : entry) (d : dict) :
  k0 <> k -> lookup k0 (update k e d) = lookup k0 d.
Proof.
  intros N. induction d as [|[k' e'] d IH]; [reflexivity|]. simpl.
  destruct (String.eqb_spec k k') as [->|N']; simpl.
  - destruct (String.eqb_spec k0 k'); [contradiction|reflexivity].
  - destruct (String.eqb k0 k'); [reflexivity|exact IH].
Qed.

Lemma keys_remove (k : string) (d : dict) :
  NoDup (map fst d) ->
  NoDup (map fst (remove k d)) /\ ~ In k (map fst (remove k d))
  /\ (forall k0 e, In (k0, e) (remove k d) -> In (k0, e) d).
Proof.
  induction d as [|[k' e'] d IH]; simpl; intros N.
  - repeat split; auto.
  - inversion N as [|? ? Hnot N']; subst.
    destruct (String.eqb_spec k k') as [->|Hne].
    + repeat split; auto.
    + destruct (IH N') as (I1 & I2 & I3). simpl. repeat split.
      * constructor; [|exact I1]. intros H. apply Hnot.
        apply in_map_iff in H. destruct H as [[k0 e0] [E H]]. simpl in E. subst.
        apply in_map_iff. exists (k', e0). split; [reflexivity|]. now apply I3.
      * intros [E|E]; [congruence|contradiction].
      * intros k0 e [E|E]; [now left|right; now apply I3].
Qed.

Lemma position_loop_spec (names : list string) :
  forall d pos0 d' pos',
    NoDup names ->
    position_loop names d pos0 = Done (d', pos') ->
    map fst d' = map fst d
    /\ (forall k, ~ In k names -> lookup k d' = lookup k d)
    /\ (forall k, In k names ->
          exists e p, lookup k d = Some e /\ nth_error e 3 = Some p
                      /\ lookup k d'
                         = Some (if is_center p then e
                                 else set_position e VPosition))
    /\ pos' = last (positions_read names d) pos0.
Proof.
  induction names as [|name names IH]; intros d pos0 d' pos' N H;
    cbn [position_loop] in H.
  - injection H as <- <-. repeat split; auto. intros k [].
  - inversion N as [|? ? Hnot N']; subst.
    destruct (lookup name d) as [e|] eqn:L; [|discriminate].
    destruct (nth_error e 3) as [p|] eqn:P; [|discriminate].
    set (d1 := if is_center p then d
               else update name (set_position e VPosition) d) in *.
    assert (K1 : map fst d1 = map fst d).
    { unfold d1. destruct (is_center p); [reflexivity|apply keys_update]. }
    assert (O1 : forall k, k <> name -> lookup k d1 = lookup k d).
    { intros k Hk. unfold d1. destruct (is_center p); [reflexivity|].
      now apply lookup_update_other. }
    assert (S1 : lookup name d1
                 = Some (if is_center p then e else set_position e VPosition)).
    { unfold d1. destruct (is_center p); [exact L|].
      eapply lookup_update_same; exact L. }
    destruct (IH _ _ _ _ N' H) as (I1 & I2 & I3 & I4).
    split; [congruence|]. split; [|split].
    + intros k Hk. rewrite I2 by (intros Hin; apply Hk; now right).
      apply O1. intros ->. apply Hk. now left.
    + intros k [<-|Hk].
      * exists e, p. split; [exact L|]. split; [exact P|].
        rewrite I2 by exact Hnot. exact S1.
      * destruct (I3 k Hk) as (e' & p' & L' & P' & R').
        exists e', p'. rewrite <- O1; [auto|]. intros ->. contradiction.
    + rewrite I4. cbn [positions_read map]. rewrite L, P.
      assert (E : positions_read names d1 = positions_read names d).
      { unfold positions_read. apply map_ext_in. intros k Hk.
        rewrite O1; [reflexivity|]. intros ->. contradiction. }
      rewrite E. fold (positions_read names d).
      destruct (positions_read names d) as [|x l]; [reflexivity|].
      change (last (Some p :: x :: l) pos0) with (last (x :: l) pos0).
      clear. revert x. induction l as [|y l IHl]; intros x; [reflexivity|].
      change (last (x :: y :: l) (Some p)) with (last (y :: l) (Some p)).
      change (last (x :: y :: l) pos0) with (last (y :: l) pos0).
      apply IHl.
Qed.

Lemma load_done (video_json audio_json : dict) (options : background_options_t) :
  load_background_options video_json audio_json = Done options ->
  mem "__comment" video_json = true
  /\ mem "__comment" audio_json = true
  /\ audio options = remove "__comment" audio_json
  /\ position_loop (map fst (remove "__comment" video_json))
       (remove "__comment" video_json) None
     = Done (video options, pos options).
Proof.
  unfold load_background_options, del.
  destruct (mem "__comment" video_json); [|discriminate].
  destruct (mem "__comment" audio_json); [|discriminate].
  destruct (position_loop _ _ None) as [[v p]| |]; try discriminate.
  intros [= <-]. repeat split.
Qed.

(** X5.  The functions that [load_background_options] stores as positions
    all read the one variable [pos] of the loop, which holds the position
    of the last video of the catalog once the loop is over.  So after a
    successful load every video whose position is not "center" carries the
    stored function, and a call of any of them at time [t] returns
    [("center", p + t)] for the position [p] of the last video, not of its
    own; it raises a TypeError when the position of the last video is a
    string, "center" included. *)
Theorem stored_positions_share_the_last_position
    (video_json audio_json front : dict) (options : background_options_t)
    (name_last : string) (e_last : entry) :
  NoDup (map fst video_json) ->
  load_background_options video_json audio_json = Done options ->
  remove "__comment" video_json = (front ++ [(name_last, e_last)])%list ->
  pos options = nth_error e_last 3
  /\ (forall name e, In (name, e) (remove "__comment" video_json) ->
        exists p, nth_error e 3 = Some p
          /\ lookup name (video options)
             = Some (if is_center p then e else set_position e VPosition))
  /\ (forall p t, nth_error e_last 3 = Some (VNum p) ->
        call_position options t = Ok ("center", p + t))
  /\ (forall s t, nth_error e_last 3 = Some (VStr s) ->
        call_position options t = Raise TypeError).
Proof.
  intros N H E.
  destruct (load_done _ _ _ H) as (_ & _ & _ & L).
  destruct (keys_remove "__comment" video_json N) as (N' & _ & _).
  destruct (position_loop_spec _ _ _ _ _ N' L) as (_ & _ & S & P).
  assert (Hpos : pos options = nth_error e_last 3).
  { rewrite P. unfold positions_read.
    assert (K : map fst (remove "__comment" video_json)
                = (map fst front ++ [name_last])%list)
      by (rewrite E, map_app; reflexivity).
    rewrite K, map_app. cbn [map]. rewrite last_last.
    rewrite (in_lookup name_last e_last); [reflexivity|exact N'|].
    rewrite E. apply in_or_app. right. now left. }
  split; [exact Hpos|]. split; [|split].
  - intros name e Hin.
    destruct (S name) as (e' & p & L' & P' & R').
    { apply in_map_iff. exists (name, e). split; [reflexivity|exact Hin]. }
    rewrite (in_lookup name e _ N' Hin) in L'. injection L' as <-.
    exists p. split; [exact P'|exact R'].
  - intros p t Hp. unfold call_position. rewrite Hpos, Hp. reflexivity.
  - intros s0 t Hp. unfold call_position. rewrite Hpos, Hp. reflexivity.
Qed.

Lemma stored_positions_witness :
  exists options,
    load_background_options catalog_of_three audio_catalog = Done options
    /\ lookup "gta" (video options)
       = Some [VStr "uri2"; VStr "gta.mp4"; VStr "Achy"; VPosition]
    /\ call_position options 10 = Ok ("center", 200 + 10).
Proof.
  assert (N : NoDup (map fst catalog_of_three)).
  { repeat constructor; simpl; intuition discriminate. }
  destruct (load_background_options catalog_of_three audio_catalog)
    as [options| |] eqn:H; try discriminate H.
  exists options. split; [reflexivity|].
  destruct (stored_positions_share_the_last_position
              catalog_of_three audio_catalog
              [ ("minecraft", [VStr "uri1"; VStr "parkour.mp4";
                               VStr "bbswitzer"; VStr "center"]);
                ("gta", [VStr "uri2"; VStr "gta.mp4"; VStr "Achy"; VNum 480]) ]
              options "rocket"
              [VStr "uri3"; VStr "rocket.mp4"; VStr "Orbital"; VNum 200]
              N H eq_refl) as (_ & S & C & _).
  split.
  - destruct (S "gta" [VStr "uri2"; VStr "gta.mp4"; VStr "Achy"; VNum 480])
      as (p & P & L).
    { right. left. reflexivity. }
    injection P as <-. exact L.
  - apply C. reflexivity.
Defined.

(** X6.  [load_background_options] needs the key "__comment" in both
    files: it raises a KeyError for it when the video file lacks it, and
    when the audio file does.  A load that succeeds has removed that key
    and kept every other name of both catalogs in order, the audio entries
    untouched, and every video entry then has a position (an index 3). *)
Theorem load_needs_the_comment_keys (video_json audio_json : dict) :
  (mem "__comment" video_json = false ->
   load_background_options video_json audio_json = KeyError "__comment")
  /\ (mem "__comment" video_json = true ->
      mem "__comment" audio_json = false ->
      load_background_options video_json audio_json = KeyError "__comment")
  /\ (forall options,
        NoDup (map fst video_json) ->
        load_background_options video_json audio_json = Done options ->
        map fst (video options) = map fst (remove "__comment" video_json)
        /\ audio options = remove "__comment" audio_json
        /\ mem "__comment" (video options) = false
        /\ (forall name e, In (name, e) (remove "__comment" video_json) ->
              (4 <= List.length e)%nat)).
Proof.
  split; [|split].
  - intros H. unfold load_background_options, del. now rewrite H.
  - intros H1 H2. unfold load_background_options, del. now rewrite H1, H2.
  - intros options N H.
    destruct (load_done _ _ _ H) as (_ & _ & A & L).
    destruct (keys_remove "__comment" video_json N) as (N' & Hnot & _).
    destruct (position_loop_spec _ _ _ _ _ N' L) as (K & _ & S & _).
    split; [exact K|]. split; [exact A|]. split.
    + unfold mem.
      destruct (lookup "__comment" (video options)) eqn:E; [|reflexivity].
      exfalso. apply Hnot. rewrite <- K.
      apply lookup_in in E. apply in_map_iff.
      exists ("__comment", e). split; [reflexivity|exact E].
    + intros name e Hin.
      destruct (S name) as (e' & p & L' & P' & _).
      { apply in_map_iff. exists (name, e). split; [reflexivity|exact Hin]. }
      rewrite (in_lookup name e _ N' Hin) in L'. injection L' as <-.
      assert (nth_error e 3 <> None) as Hn by congruence.
      apply nth_error_Some in Hn. lia.
Qed.

Lemma load_needs_the_comment_keys_witness :
  load_background_options (tl catalog_of_three) audio_catalog
  = KeyError "__comment"
  /\ load_background_options catalog_of_three (tl audio_catalog)
     = KeyError "__comment".
Proof.
  destruct (load_needs_the_comment_keys (tl catalog_of_three) audio_catalog)
    as (H1 & _).
  destruct (load_needs_the_comment_keys catalog_of_three (tl audio_catalog))
    as (_ & H2 & _).
  split; [apply H1; reflexivity|apply H2; reflexivity].
Defined.

Lemma random_entry_spec (d : dict) :
  NoDup (map fst d) -> d <> [] ->
  random_entry d = map (fun kv => Done (snd kv)) d.
Proof.
  intros N Hd. unfold random_entry. destruct d as [|kv d0]; [congruence|].
  set (d := kv :: d0) in *. clearbody d. clear kv d0 Hd.
  rewrite map_map. apply map_ext_in. intros [k e] Hin. simpl.
  now rewrite (in_lookup k e d N Hin).
Qed.

Lemma casefold_has_no_upper (s : string) : has_upper (casefold s) = false.
Proof.
  induction s as [|c s IH]; [reflexivity|]. simpl. rewrite IH, orb_false_r.
  unfold lower. destruct (in_range "A" "Z" c) eqn:E; [|exact E].
  unfold in_range in *. apply andb_prop in E. destruct E as [E1 E2].
  apply N.leb_le in E1, E2. rewrite N_ascii_embedding.
  - apply andb_false_iff. right. apply N.leb_gt.
    change (N_of_ascii "A") with 65%N in E1.
    change (N_of_ascii "Z") with 90%N in *. lia.
  - change (N_of_ascii "Z") with 90%N in E2. lia.
Qed.

(** X7.  [get_background_config] on a catalog that is not empty never
    fails and always returns an entry of the catalog.  When the configured
    value, folded to lower case, is a name of the catalog, that entry is
    the only outcome; otherwise (no value, an empty one, an unknown name)
    the outcomes are the entries of the catalog, each exactly once. *)
Theorem get_background_config_returns_a_catalog_entry
    (d : dict) (configured : option string) :
  NoDup (map fst d) -> d <> [] ->
  (forall o, In o (get_background_config d configured) ->
     exists k e, In (k, e) d /\ o = Done e)
  /\ (forall v e, configured = Some v -> casefold v <> EmptyString ->
        lookup (casefold v) d = Some e ->
        get_background_config d configured = [Done e])
  /\ ((configured = None
       \/ exists v, configured = Some v
            /\ (casefold v = EmptyString \/ lookup (casefold v) d = None)) ->
      get_background_config d configured = map (fun kv => Done (snd kv)) d).
Proof.
  intros N Hd. pose proof (random_entry_spec d N Hd) as R.
  assert (Hr : forall o, In o (random_entry d) ->
                 exists k e, In (k, e) d /\ o = Done e).
  { intros o Ho. rewrite R in Ho. apply in_map_iff in Ho.
    destruct Ho as [[k e] [<- Hin]]. exists k, e. split; [exact Hin|reflexivity]. }
  split; [|split].
  - intros o Ho. unfold get_background_config in Ho.
    destruct configured as [v|]; [|now apply Hr].
    destruct (casefold v) as [|c s] eqn:E; [now apply Hr|].
    destruct (lookup (String c s) d) as [e|] eqn:L; [|now apply Hr].
    destruct Ho as [<-|[]]. exists (String c s), e.
    split; [now apply lookup_in|reflexivity].
  - intros v e -> Hne L. unfold get_background_config.
    destruct (casefold v) as [|c s]; [congruence|]. now rewrite L.
  - intros [->|[v [-> [E|E]]]]; unfold get_background_config.
    + exact R.
    + rewrite E. exact R.
    + destruct (casefold v) as [|c s]; [exact R|]. rewrite E. exact R.
Qed.

Lemma get_background_config_witness :
  get_background_config (tl catalog_of_three) (Some "MineCraft")
  = [Done [VStr "uri1"; VStr "parkour.mp4"; VStr "bbswitzer"; VStr "center"]].
Proof.
  assert (N : NoDup (map fst (tl catalog_of_three))).
  { repeat constructor; simpl; intuition discriminate. }
  destruct (get_background_config_returns_a_catalog_entry
              (tl catalog_of_three) (Some "MineCraft") N ltac:(discriminate))
    as (_ & H & _).
  apply (H "MineCraft"); [reflexivity|discriminate|reflexivity].
Defined.

(** X8.  The choice by name only ever looks up a name without upper-case
    letters.  So a catalog entry whose name holds an upper-case letter is
    never chosen by name: configuring exactly that name falls back to the
    random choice, unless the catalog also holds the lower-case name. *)
Theorem upper_case_names_are_not_chosen_by_name (d : dict) (k : string) :
  NoDup (map fst d) -> d <> [] ->
  has_upper k = true ->
  ~ In (casefold k) (map fst d) ->
  (forall v, casefold v <> k)
  /\ get_background_config d (Some k) = map (fun kv => Done (snd kv)) d.
Proof.
  intros N Hd Hu Hnot. split.
  - intros v E. pose proof (casefold_has_no_upper v) as H. congruence.
  - unfold get_background_config.
    apply lookup_none in Hnot.
    destruct (casefold k) as [|c s]; [now apply random_entry_spec|].
    rewrite Hnot. now apply random_entry_spec.
Qed.

Lemma upper_case_names_witness :
  get_background_config
    [ ("GTA", [VStr "uri2"; VStr "gta.mp4"; VStr "Achy"; VNum 480]);
      ("rocket", [VStr "uri3"; VStr "rocket.mp4"; VStr "Orbital"; VNum 200]) ]
    (Some "GTA")
  = [ Done [VStr "uri2"; VStr "gta.mp4"; VStr "Achy"; VNum 480];
      Done [VStr "uri3"; VStr "rocket.mp4"; VStr "Orbital"; VNum 200] ].
Proof.
  refine (proj2 (upper_case_names_are_not_chosen_by_name _ "GTA" _ _ _ _)).
  - repeat constructor; simpl; intuition discriminate.
  - discriminate.
  - reflexivity.
  - simpl. intuition discriminate.
Defined.

End CatalogFacts.

(** ** Properties of the working directory and of the normalized text *)

Module TextFacts.

Import Py TTS Notions Paths MoreNotions TTSFacts.
Open Scope string_scope.

Lemma string_filter_ext (p q : ascii -> bool) (s : string) :
  (forall c, p c = q c) -> string_filter p s = string_filter q s.
Proof.
  intros H. induction s as [|c s IH]; [reflexivity|].
  simpl. now rewrite H, IH.
Qed.

Lemma string_filter_forall (p : ascii -> bool) (s : string) :
  string_forall p (string_filter p s) = true.
Proof.
  induction s as [|c s IH]; [reflexivity|]. simpl.
  destruct (p c) eqn:E; [|exact IH]. simpl. now rewrite E.
Qed.

Lemma string_filter_id (p : ascii -> bool) (s : string) :
  string_forall p s = true -> string_filter p s = s.
Proof.
  induction s as [|c s IH]; [reflexivity|]. simpl. intros H.
  apply andb_prop in H. destruct H as [H1 H2]. now rewrite H1, IH.
Qed.

(** Deleting the matches of a class of characters keeps the others. *)
Lemma sub_class_is_filter (q : ascii -> bool) (s : string) :
  forall prev,
    sub_from (Class q) EmptyString prev s 0
    = string_filter (fun c => negb (q c)) s.
Proof.
  induction s as [|c s IH]; intros prev; [reflexivity|].
  cbn [sub_from string_filter]. unfold match_here. cbn [rmatch].
  destruct (q c); simpl; now rewrite IH.
Qed.

Lemma forall_not_contains (p : ascii -> bool) (c : ascii) (s : string) :
  string_forall p s = true -> p c = false ->
  contains (String c EmptyString) s = false.
Proof.
  intros H Hc. induction s as [|d s IH]; [reflexivity|].
  simpl in H. apply andb_prop in H. destruct H as [H1 H2].
  cbn [contains String.prefix]. rewrite (IH H2), orb_false_r.
  destruct (Ascii.ascii_dec c d) as [->|_]; [congruence|reflexivity].
Qed.

(** X9.  The directory key of a thread keeps exactly the characters of
    [thread_id] that are letters, digits, underscores, white space or
    hyphens, in their order.  So it holds no other character, in
    particular no slash and no period, and cleaning a key again changes
    nothing. *)
Theorem redditid_keeps_the_allowed_characters (thread_id : string) :
  redditid thread_id = string_filter id_char thread_id
  /\ string_forall id_char (redditid thread_id) = true
  /\ redditid (redditid thread_id) = redditid thread_id
  /\ contains "/" (redditid thread_id) = false
  /\ contains "." (redditid thread_id) = false.
Proof.
  assert (E : forall s, redditid s = string_filter id_char s).
  { intros s. unfold redditid, sub. rewrite sub_class_is_filter.
    apply string_filter_ext. intros c. apply negb_involutive. }
  assert (F : string_forall id_char (redditid thread_id) = true)
    by (rewrite E; apply string_filter_forall).
  split; [apply E|]. split; [exact F|]. split; [|split].
  - rewrite (E (redditid thread_id)). now apply string_filter_id.
  - now apply (forall_not_contains id_char).
  - now apply (forall_not_contains id_char).
Qed.

(** *** What [add_periods] returns *)

Lemma last_char_append (a b : string) :
  last_char (a ++ b)
  = match last_char b with Some c => Some c | None => last_char a end.
Proof.
  induction a as [|c a IH].
  - simpl. destruct (last_char b); reflexivity.
  - destruct a as [|c' a].
    + simpl. destruct b as [|d b]; [reflexivity|].
      destruct (last_char (String d b)) eqn:E; [reflexivity|].
      apply last_char_none in E. discriminate.
    + exact IH.
Qed.

Lemma last_char_tail (d c : ascii) (s : string) :
  s <> EmptyString -> last_char (String d s) = Some c -> last_char s = Some c.
Proof. destruct s; [congruence|]. intros _ H. exact H. Qed.

Lemma last_char_cons (d : ascii) (s : string) :
  s <> EmptyString -> last_char (String d s) = last_char s.
Proof. destruct s; [congruence|reflexivity]. Qed.

Lemma replace_from_last (old new : string) (c : ascii) (s : string) :
  last_char new = Some c ->
  forall skip,
    last_char s = Some c ->
    replace_from old new s skip = EmptyString
    \/ last_char (replace_from old new s skip) = Some c.
Proof.
  intros Hn. induction s as [|d s IH]; intros skip Hs; [discriminate|].
  assert (T : forall k, replace_from old new s k = EmptyString
                        \/ last_char (replace_from old new s k) = Some c
                        \/ s = EmptyString).
  { intros k. destruct s as [|d' s'] eqn:Es; [auto|].
    rewrite <- Es in *.
    destruct (IH k) as [H|H]; auto.
    apply (last_char_tail d); [congruence|exact Hs]. }
  cbn [replace_from]. destruct skip as [|skip].
  - destruct (String.prefix old (String d s)).
    + right. rewrite last_char_append.
      destruct (T (Nat.pred (String.length old))) as [H|[H|H]].
      * rewrite H. exact Hn.
      * rewrite H. reflexivity.
      * subst s. simpl. exact Hn.
    + right. destruct (T 0%nat) as [H|[H|H]].
      * rewrite H. destruct s as [|d' s'] eqn:Es; [exact Hs|].
        exfalso. revert H. apply (replace_nonempty old new (String d' s')).
        -- intros ->. discriminate.
        -- discriminate.
      * destruct (replace_from old new s 0) as [|x r] eqn:Er; [discriminate|].
        exact H.
      * subst s. exact Hs.
  - destruct (T skip) as [H|[H|H]]; auto. subst s. now left.
Qed.

Lemma replace_keeps_last (old new : string) (c : ascii) (s : string) :
  last_char new = Some c -> last_char s = Some c ->
  last_char (replace old new s) = Some c.
Proof.
  intros Hn Hs. destruct (replace_from_last old new c s Hn 0 Hs) as [H|H];
    [|exact H].
  exfalso. revert H. apply replace_nonempty.
  - intros ->. discriminate.
  - intros ->. discriminate.
Qed.

Lemma sub_from_last (r : regex) (repl : string) (c : ascii) (s : string) :
  last_char repl = Some c ->
  forall prev skip,
    last_char s = Some c ->
    sub_from r repl prev s skip = EmptyString
    \/ last_char (sub_from r repl prev s skip) = Some c.
Proof.
  intros Hn. induction s as [|d s IH]; intros prev skip Hs; [discriminate|].
  assert (T : forall p k, sub_from r repl p s k = EmptyString
                          \/ last_char (sub_from r repl p s k) = Some c
                          \/ (s = EmptyString /\ (k <> 0)%nat)
                          \/ (s = EmptyString /\ k = 0%nat)).
  { intros p k. destruct s as [|d' s'] eqn:Es.
    - destruct k; auto.
    - rewrite <- Es in *. destruct (IH p k) as [H|H]; auto.
      apply (last_char_tail d); [congruence|exact Hs]. }
  assert (A : forall p k, last_char (repl ++ sub_from r repl p s k) = Some c).
  { intros p k. rewrite last_char_append.
    destruct (T p k) as [H|[H|[[H _]|[H _]]]].
    - rewrite H. exact Hn.
    - rewrite H. reflexivity.
    - subst s. simpl. destruct k; [|exact Hn].
      destruct (match_here r p EmptyString); simpl; [rewrite Hn; reflexivity|exact Hn].
    - subst s. simpl. destruct k; [|exact Hn].
      destruct (match_here r p EmptyString); simpl; [rewrite Hn; reflexivity|exact Hn]. }
  assert (B : forall p, last_char (String d (sub_from r repl p s 0)) = Some c).
  { intros p. destruct s as [|d' s'] eqn:Es.
    - simpl. destruct (match_here r p EmptyString).
      + destruct repl as [|x repl']; [discriminate|exact Hn].
      + exact Hs.
    - rewrite <- Es in *.
      assert (Hs' : last_char s = Some c)
        by (apply (last_char_tail d); [congruence|exact Hs]).
      destruct (IH p 0%nat Hs') as [H|H].
      + exfalso. revert H. rewrite Es. cbn [sub_from].
        destruct (match_here r p (String d' s')) as [[|m]|]; try discriminate;
          destruct repl; discriminate.
      + destruct (sub_from r repl p s 0) as [|x t]; [discriminate|exact H]. }
  cbn [sub_from]. destruct skip as [|skip].
  - destruct (match_here r prev (String d s)) as [[|m]|].
    + right. rewrite last_char_append. rewrite B. reflexivity.
    + right. apply A.
    + right. apply B.
  - destruct (T (Some d) skip) as [H|[H|[[H _]|[H _]]]]; auto.
    + subst s. simpl. destruct skip; [|now left].
      destruct (match_here r (Some d) EmptyString); [right; exact Hn|now left].
    + subst s. simpl. destruct skip; [|now left].
      destruct (match_here r (Some d) EmptyString); [right; exact Hn|now left].
Qed.

Lemma sub_keeps_last (r : regex) (repl : string) (c : ascii) (s : string) :
  last_char repl = Some c -> last_char s = Some c ->
  last_char (sub r repl s) = Some c.
Proof.
  intros Hn Hs. destruct (sub_from_last r repl c s Hn None 0 Hs) as [H|H];
    [|exact H].
  exfalso. revert H. apply sub_nonempty.
  - intros ->. discriminate.
  - intros ->. discriminate.
Qed.

(** X10.  Whatever the comment body, the text that [add_periods] leaves in
    it ends with a period. *)
Theorem add_periods_body_ends_with_a_period (body out : string) :
  add_periods_body body = Ok out -> last_char out = Some "."%char.
Proof.
  unfold add_periods_body.
  destruct (last_char (strip_and_expand body)) as [c|] eqn:L; [|discriminate].
  intros [= <-].
  assert (H : last_char (if Ascii.eqb c "." then strip_and_expand body
                         else strip_and_expand body ++ ".") = Some "."%char).
  { destruct (Ascii.eqb_spec c "."%char) as [->|_]; [exact L|].
    rewrite last_char_append. reflexivity. }
  unfold collapse.
  apply sub_keeps_last; [reflexivity|].
  repeat (apply replace_keeps_last; [reflexivity|]). exact H.
Qed.

Lemma add_periods_body_ends_with_a_period_witness :
  add_periods_body "no period here" = Ok "no period here."
  /\ last_char "no period here." = Some "."%char.
Proof.
  assert (H : add_periods_body "no period here" = Ok "no period here.")
    by reflexivity.
  split; [exact H|].
  exact (add_periods_body_ends_with_a_period _ _ H).
Defined.

Lemma string_forall_append (p : ascii -> bool) (a b : string) :
  string_forall p (a ++ b) = string_forall p a && string_forall p b.
Proof.
  induction a as [|c a IH]; [reflexivity|]. simpl. now rewrite IH, andb_assoc.
Qed.

Lemma replace_from_forall (p : ascii -> bool) (old new s : string) :
  string_forall p new = true ->
  forall skip, string_forall p s = true ->
               string_forall p (replace_from old new s skip) = true.
Proof.
  intros Hn. induction s as [|d s IH]; intros skip Hs; [reflexivity|].
  simpl in Hs. apply andb_prop in Hs. destruct Hs as [H1 H2].
  cbn [replace_from]. destruct skip; [|now apply IH].
  destruct (String.prefix old (String d s)).
  - rewrite string_forall_append, Hn. now apply IH.
  - simpl. rewrite H1. now apply IH.
Qed.

Lemma sub_from_forall (p : ascii -> bool) (r : regex) (repl s : string) :
  string_forall p repl = true ->
  forall prev skip, string_forall p s = true ->
                    string_forall p (sub_from r repl prev s skip) = true.
Proof.
  intros Hn. induction s as [|d s IH]; intros prev skip Hs.
  - simpl. destruct skip; [|reflexivity].
    destruct (match_here r prev EmptyString); [exact Hn|reflexivity].
  - simpl in Hs. apply andb_prop in Hs. destruct Hs as [H1 H2].
    cbn [sub_from]. destruct skip; [|now apply IH].
    destruct (match_here r prev (String d s)) as [[|m]|].
    + rewrite string_forall_append, Hn. simpl. rewrite H1. now apply IH.
    + rewrite string_forall_append, Hn. now apply IH.
    + simpl. rewrite H1. now apply IH.
Qed.

(** Replacing every occurrence of one character removes it. *)
Lemma replace_char_forall (c : ascii) (new s : string) :
  string_forall (fun d => negb (Ascii.eqb d c)) new = true ->
  forall skip,
    string_forall (fun d => negb (Ascii.eqb d c))
      (replace_from (String c EmptyString) new s skip) = true.
Proof.
  intros Hn. induction s as [|d s IH]; intros skip; [reflexivity|].
  cbn [replace_from]. destruct skip; [|apply IH].
  cbn [String.prefix]. destruct (Ascii.ascii_dec c d) as [->|N]; cbv iota.
  - replace (String.prefix EmptyString s) with true by (destruct s; reflexivity).
    rewrite string_forall_append, Hn. apply IH.
  - cbn [string_forall]. rewrite IH, andb_true_r. apply negb_true_iff.
    apply Ascii.eqb_neq. congruence.
Qed.

(** X11.  The text that [add_periods] leaves in a comment body holds no
    line break. *)
Theorem add_periods_body_has_no_line_break (body out : string) :
  add_periods_body body = Ok out -> string_forall not_newline out = true.
Proof.
  unfold add_periods_body.
  destruct (last_char (strip_and_expand body)) as [c|] eqn:L; [|discriminate].
  intros [= <-].
  assert (S : string_forall not_newline (strip_and_expand body) = true).
  { unfold strip_and_expand, sub.
    do 2 (apply sub_from_forall; [reflexivity|]).
    apply (replace_char_forall newline). reflexivity. }
  unfold collapse, sub, replace.
  apply sub_from_forall; [reflexivity|].
  do 3 (apply replace_from_forall; [reflexivity|]).
  destruct (Ascii.eqb c "."); [exact S|].
  rewrite string_forall_append, S. reflexivity.
Qed.

Lemma add_periods_body_has_no_line_break_witness :
  string_forall not_newline "one. two." = true.
Proof.
  apply (add_periods_body_has_no_line_break
           ("one" ++ String newline "two")).
  reflexivity.
Defined.

Lemma add_periods_loop_all (cs : list comment) :
  has_empty_body cs = false ->
  add_periods_loop cs = (map normalize_comment cs, Ok tt).
Proof.
  induction cs as [|c cs IH]; [reflexivity|].
  cbn [has_empty_body existsb]. intros H. apply orb_false_iff in H.
  destruct H as [H1 H2]. apply String.eqb_neq in H1.
  cbn [add_periods_loop].
  destruct (add_periods_body_returns _ H1) as [out E].
  assert (N : normalize_comment c = {| comment_body := out |}).
  { unfold normalize_comment, normalize. now rewrite E. }
  rewrite E. unfold has_empty_body in IH. rewrite (IH H2). cbn [map].
  rewrite N. reflexivity.
Qed.

(** X12.  [add_periods] works in place and stops at the first comment with
    an empty body: the comments before it keep their normalized bodies,
    that comment and those after it are as they were, and the title and
    the running total are not touched.  Without an empty body every
    comment is normalized. *)
Theorem add_periods_stops_at_the_first_empty_body :
  (forall cs, has_empty_body cs = false ->
     add_periods_loop cs = (map normalize_comment cs, Ok tt))
  /\ (forall pre c post,
        has_empty_body pre = false -> comment_body c = EmptyString ->
        add_periods_loop (pre ++ c :: post)
        = ((map normalize_comment pre ++ c :: post)%list, Raise IndexError))
  /\ (forall e,
        thread_title (reddit_object (fst (add_periods e)))
        = thread_title (reddit_object e)
        /\ length (fst (add_periods e)) = length e
        /\ synthesized (fst (add_periods e)) = synthesized e).
Proof.
  assert (N : forall c, comment_body c <> EmptyString ->
                add_periods_body (comment_body c)
                = Ok (comment_body (normalize_comment c))).
  { intros c Hc. destruct (add_periods_body_returns _ Hc) as [out E].
    unfold normalize_comment, normalize. simpl. now rewrite E. }
  split; [|split].
  - induction cs as [|c cs IH]; [reflexivity|].
    cbn [has_empty_body existsb]. intros H. apply orb_false_iff in H.
    destruct H as [H1 H2]. apply String.eqb_neq in H1.
    cbn [add_periods_loop]. rewrite (N c H1).
    unfold has_empty_body in IH. rewrite (IH H2). reflexivity.
  - intros pre c post. induction pre as [|a pre IH]; intros H Hc.
    + destruct c as [b]. simpl in Hc. subst b. reflexivity.
    + cbn [has_empty_body existsb] in H. apply orb_false_iff in H.
      destruct H as [H1 H2]. apply String.eqb_neq in H1.
      cbn [app add_periods_loop]. rewrite (N a H1).
      unfold has_empty_body in IH. rewrite (IH H2 Hc). reflexivity.
  - intros e. unfold add_periods.
    destruct (add_periods_loop (comments (reddit_object e))). repeat split.
Qed.

Lemma add_periods_stops_witness :
  add_periods_loop (comments document_with_an_empty_comment)
  = ([ {| comment_body := "First comment." |};
       {| comment_body := EmptyString |};
       {| comment_body := "Third comment" |} ], Raise IndexError).
Proof.
  destruct add_periods_stops_at_the_first_empty_body as (_ & H & _).
  exact (H [ {| comment_body := "First comment" |} ]
           {| comment_body := EmptyString |}
           [ {| comment_body := "Third comment" |} ] eq_refl eq_refl).
Defined.

End TextFacts.

(** ** Further properties of the speech assembly *)

Module TTSMore.

Import Py TTS Notions MoreNotions TTSFacts.
Open Scope string_scope.

(** *** The chunks of [split_post] *)

Lemma length_take (m : nat) (s : string) : (String.length (take m s) <= m)%nat.
Proof.
  revert s. induction m as [|m IH]; intros s; [reflexivity|].
  destruct s as [|c s]; simpl; [lia|]. specialize (IH s). lia.
Qed.

Lemma length_lstrip (s : string) : (String.length (lstrip s) <= String.length s)%nat.
Proof.
  induction s as [|c s IH]; [reflexivity|]. simpl.
  destruct (is_space c); simpl; lia.
Qed.

Lemma length_rstrip (s : string) : (String.length (rstrip s) <= String.length s)%nat.
Proof.
  induction s as [|c s IH]; [reflexivity|]. simpl.
  destruct (rstrip s) as [|d t].
  - destruct (is_space c); simpl; lia.
  - simpl in *. lia.
Qed.

Lemma lstrip_leading_blanks (j m : nat) (s : string) :
  leading_blanks j s = true ->
  (String.length (lstrip (take (j + m) s)) <= m)%nat.
Proof.
  revert s. induction j as [|j IH]; intros s H.
  - simpl. pose proof (length_lstrip (take m s)). pose proof (length_take m s). lia.
  - destruct s as [|c s]; [discriminate|]. simpl in H.
    apply andb_prop in H. destruct H as [H1 H2].
    apply Ascii.eqb_eq in H1. subst c. simpl. now apply IH.
Qed.

Lemma rmatch_Many (A : Type) (r : regex) (lo : nat)
    (k : option ascii -> nat -> string -> option A)
    (prev : option ascii) (n : nat) (s : string) :
  rmatch (Many r lo) prev n s k
  = many_from r k (S (String.length s)) lo prev n s.
Proof. reflexivity. Qed.

Lemma rmatch_Repeat (A : Type) (r : regex) (lo hi : nat)
    (k : option ascii -> nat -> string -> option A)
    (prev : option ascii) (n : nat) (s : string) :
  rmatch (Repeat r lo hi) prev n s k = repeat_from r k lo hi prev n s.
Proof. reflexivity. Qed.

Lemma many_from_S (A : Type) (r : regex)
    (k : option ascii -> nat -> string -> option A)
    (fuel lo : nat) (prev : option ascii) (n : nat) (s : string) :
  many_from r k (S fuel) lo prev n s
  = match rmatch r prev n s
            (fun prev' n' s' =>
               if Nat.ltb n n' then many_from r k fuel (Nat.pred lo) prev' n' s'
               else None) with
    | Some x => Some x
    | None => if Nat.eqb lo 0 then k prev n s else None
    end.
Proof. reflexivity. Qed.

Lemma repeat_from_S (A : Type) (r : regex)
    (k : option ascii -> nat -> string -> option A)
    (lo hi : nat) (prev : option ascii) (n : nat) (s : string) :
  repeat_from r k lo (S hi) prev n s
  = match rmatch r prev n s
            (fun prev' n' s' => repeat_from r k (Nat.pred lo) hi prev' n' s') with
    | Some x => Some x
    | None => if Nat.eqb lo 0 then k prev n s else None
    end.
Proof. reflexivity. Qed.

(** The blanks that the pattern skips before a chunk. *)
Lemma match_blanks (A : Type) (k : option ascii -> nat -> string -> option A)
    (x : A) (fuel : nat) :
  forall prev n s,
    many_from (Lit " ") k fuel 0 prev n s = Some x ->
    exists j prev' s',
      leading_blanks j s = true /\ k prev' (n + j)%nat s' = Some x.
Proof.
  assert (Stop : forall prev n s, k prev n s = Some x ->
            exists j prev' s',
              leading_blanks j s = true /\ k prev' (n + j)%nat s' = Some x).
  { intros prev n s K. exists 0%nat, prev, s. rewrite Nat.add_0_r.
    split; [reflexivity|exact K]. }
  induction fuel as [|fuel IH]; intros prev n s H.
  - exact (Stop prev n _ H).
  - rewrite many_from_S in H. cbn [rmatch Nat.pred Nat.eqb] in H.
    destruct s as [|c s]; [exact (Stop prev n _ H)|].
    destruct (Ascii.eqb " " c) eqn:E; [|exact (Stop prev n _ H)].
    replace (Nat.ltb n (S n)) with true in H
      by (symmetry; apply Nat.ltb_lt; lia).
    destruct (many_from (Lit " ") k fuel 0 (Some c) (S n) s) as [y|] eqn:R;
      [|exact (Stop prev n _ H)].
    injection H as ->. apply IH in R.
    destruct R as (j & prev' & s' & B & K).
    exists (S j), prev', s'. split.
    + simpl. apply Ascii.eqb_eq in E. subst c. exact B.
    + rewrite Nat.add_succ_r. exact K.
Qed.

(** The characters of a chunk before its last one: at most [hi]. *)
Lemma match_up_to (A : Type) (k : option ascii -> nat -> string -> option A)
    (x : A) (hi : nat) :
  forall prev n s,
    repeat_from (Or Dot (Lit newline)) k 0 hi prev n s = Some x ->
    exists m prev' s', (m <= hi)%nat /\ k prev' (n + m)%nat s' = Some x.
Proof.
  induction hi as [|hi IH]; intros prev n s H.
  - exists 0%nat, prev, s. rewrite Nat.add_0_r. split; [lia|exact H].
  - assert (Stop : k prev n s = Some x ->
              exists m prev' s', (m <= S hi)%nat /\ k prev' (n + m)%nat s' = Some x).
    { intros K. exists 0%nat, prev, s. rewrite Nat.add_0_r. split; [lia|exact K]. }
    assert (Go : forall p s0,
              repeat_from (Or Dot (Lit newline)) k 0 hi p (S n) s0 = Some x ->
              exists m prev' s', (m <= S hi)%nat /\ k prev' (n + m)%nat s' = Some x).
    { intros p s0 R. apply IH in R. destruct R as (m & prev' & s' & Hm & K).
      exists (S m), prev', s'. split; [lia|].
      rewrite Nat.add_succ_r. exact K. }
    rewrite repeat_from_S in H. unfold Dot in H.
    cbn [rmatch Nat.pred Nat.eqb] in H.
    destruct s as [|c s]; [exact (Stop H)|].
    fold Dot in H.
    assert (E : match repeat_from (Or Dot (Lit newline)) k 0 hi (Some c) (S n) s
                with Some y => Some y | None => k prev n (String c s) end
                = Some x).
    { destruct (Ascii.eqb_spec c newline) as [->|N].
      - rewrite Ascii.eqb_refl in H. cbn [negb] in H. cbv iota in H. exact H.
      - cbn [negb] in H. cbv iota in H.
        destruct (repeat_from (Or Dot (Lit newline)) k 0 hi (Some c) (S n) s);
          cbv iota in H |- *; [exact H|].
        destruct (Ascii.eqb newline c); exact H. }
    destruct (repeat_from (Or Dot (Lit newline)) k 0 hi (Some c) (S n) s)
      as [y|] eqn:R.
    + cbv iota in E. injection E as ->. now apply (Go (Some c) s).
    + exact (Stop E).
Qed.

(** The last character of a chunk. *)
Lemma match_terminator (n : nat) (prev : option ascii) (s : string) (x : nat) :
  rmatch (Or (Lit ".") (Cat Dot Dollar)) prev n s (fun _ m _ => Some m) = Some x ->
  x = S n.
Proof.
  unfold Dot. cbn [rmatch]. destruct s as [|c s]; [discriminate|].
  destruct (Ascii.eqb "." c); cbv iota beta.
  - intros [= <-]. reflexivity.
  - destruct (negb (Ascii.eqb c newline)); cbv iota beta; [|discriminate].
    destruct s as [|d [|d' s']]; cbv iota beta; try discriminate.
    + intros [= <-]. reflexivity.
    + destruct (Ascii.eqb d newline); cbv iota beta; [|discriminate].
      intros [= <-]. reflexivity.
Qed.

Lemma match_split_regex (max_chars : nat) (prev : option ascii) (s : string)
    (x : nat) :
  match_here (split_regex max_chars) prev s = Some x ->
  exists j m, leading_blanks j s = true /\ (m <= max_chars)%nat
              /\ x = (j + S m)%nat.
Proof.
  unfold match_here, split_regex. intros H.
  change (many_from (Lit " ")
            (fun prev' n' s' =>
               rmatch (Cat (Repeat (Or Dot (Lit newline)) 0 max_chars)
                         (Or (Lit ".") (Cat Dot Dollar))) prev' n' s'
                 (fun _ n _ => Some n))
            (S (String.length s)) 0 prev 0 s = Some x) in H.
  apply match_blanks in H. destruct H as (j & prev1 & s1 & B & H).
  change (repeat_from (Or Dot (Lit newline))
            (fun prev' n' s' =>
               rmatch (Or (Lit ".") (Cat Dot Dollar)) prev' n' s'
                 (fun _ n _ => Some n))
            0 max_chars prev1 (0 + j) s1 = Some x) in H.
  apply match_up_to in H. destruct H as (m & prev2 & s2 & Hm & H).
  apply match_terminator in H.
  exists j, m. split; [exact B|]. split; [exact Hm|]. lia.
Qed.

Lemma finditer_from_elements (r : regex) (s : string) :
  forall prev skip x,
    In x (finditer_from r prev s skip) ->
    x = EmptyString
    \/ exists prev' s' m, match_here r prev' s' = Some (S m) /\ x = take (S m) s'.
Proof.
  induction s as [|c s IH]; intros prev skip x H.
  - simpl in H. destruct skip; [|contradiction].
    destruct (match_here r prev EmptyString); [|contradiction].
    destruct H as [<-|[]]. now left.
  - cbn [finditer_from] in H. destruct skip; [|now apply IH in H].
    destruct (match_here r prev (String c s)) as [[|m]|] eqn:M.
    + destruct H as [<-|H]; [now left|now apply IH in H].
    + destruct H as [<-|H]; [|now apply IH in H].
      right. exists prev, (String c s), m. split; [exact M|reflexivity].
    + now apply IH in H.
Qed.

(** X13.  Every chunk that [split_post] cuts from a text has at most
    [max_chars + 1] characters: up to [max_chars] characters and the one
    that ends the chunk.  (The bound is reached: a chunk can be one
    character longer than the limit of the speech module.) *)
Theorem chunks_are_at_most_one_longer_than_max_chars
    (max_chars : nat) (text chunk : string) :
  In chunk (split_text_of max_chars text) ->
  (String.length chunk <= S max_chars)%nat.
Proof.
  unfold split_text_of, finditer. intros H. apply in_map_iff in H.
  destruct H as [x [<- H]]. apply finditer_from_elements in H.
  destruct H as [->|(prev & s & m & M & ->)]; [simpl; lia|].
  apply match_split_regex in M. destruct M as (j & k & B & Hk & E).
  rewrite E. unfold strip.
  pose proof (length_rstrip (lstrip (take (j + S k) s))).
  pose proof (lstrip_leading_blanks j (S k) s B). lia.
Qed.

Lemma chunks_bound_is_reached :
  In "aaaa." (split_text_of 4 "aaaa. bb.")
  /\ (String.length "aaaa." <= 5)%nat
  /\ String.length "aaaa." = 5%nat.
Proof.
  assert (H : In "aaaa." (split_text_of 4 "aaaa. bb.")) by (left; reflexivity).
  split; [exact H|]. split; [|reflexivity].
  exact (chunks_are_at_most_one_longer_than_max_chars 4 _ _ H).
Defined.

(** *** What [split_post] leaves behind *)

Section SplitFiles.

Variable world : collaborators.
Variable settings : settings_t.

Lemma call_tts_synthesized (e : TTSEngine) (file : filename) (text : string) :
  synthesized (call_tts world e file text)
  = (synthesized e ++ [(file, text)])%list
  /\ unlinked (call_tts world e file text) = unlinked e.
Proof.
  unfold call_tts, update_durations.
  destruct (Qlt_bool 0 (clip_duration world file text)); split; reflexivity.
Qed.

Lemma split_loop_files (idx : unit_id) (n : nat) (cuts : list string) :
  forall e split_files idy,
    let r := split_loop world settings idx n e split_files idy cuts in
    synthesized (fst r)
    = (synthesized e ++ spoken_parts world settings idx idy cuts)%list
    /\ snd r
       = (split_files ++ map fst (spoken_parts world settings idx idy cuts))%list
    /\ unlinked (fst r) = unlinked e.
Proof.
  induction cuts as [|text_cut cuts IH]; intros e split_files idy;
    cbn [split_loop spoken_parts].
  - simpl. now rewrite !app_nil_r.
  - destruct (blank (process_text world settings text_cut)); [apply IH|].
    cbn zeta. specialize (IH
      (with_concat (call_tts world e (FPart idx idy)
                      (process_text world settings text_cut))
         (concat_log (call_tts world e (FPart idx idy)
                        (process_text world settings text_cut))
          ++ [(idx, list_txt idx n)])%list)
      (split_files ++ [FPart idx idy])%list (S idy)).
    cbn zeta in IH. destruct IH as (I1 & I2 & I3). rewrite I1, I2, I3.
    destruct (call_tts_synthesized e (FPart idx idy)
                (process_text world settings text_cut)) as [K1 K2].
    cbn [with_concat synthesized unlinked map fst]. rewrite K1, K2.
    rewrite <- !app_assoc. repeat split.
Qed.

Lemma split_loop_nothing_spoken (idx : unit_id) (n : nat) (cuts : list string) :
  forall e split_files idy,
    spoken_parts world settings idx idy cuts = [] ->
    split_loop world settings idx n e split_files idy cuts = (e, split_files).
Proof.
  induction cuts as [|text_cut cuts IH]; intros e split_files idy H;
    cbn [split_loop spoken_parts] in *; [reflexivity|].
  destruct (blank (process_text world settings text_cut)); [now apply IH|].
  discriminate.
Qed.

Lemma spoken_parts_are_parts (idx : unit_id) (cuts : list string) :
  forall idy f t,
    In (f, t) (spoken_parts world settings idx idy cuts) ->
    blank t = false /\ exists k, f = FPart idx k.
Proof.
  induction cuts as [|text_cut cuts IH]; intros idy f t H;
    cbn [spoken_parts] in H; [contradiction|].
  destruct (blank (process_text world settings text_cut)) eqn:B;
    [now apply IH in H|].
  destruct H as [[= <- <-]|H]; [|now apply IH in H].
  split; [exact B|]. now exists idy.
Qed.

Lemma part_clips_of_spoken (idx : unit_id) (cuts : list string) :
  forall idy,
    part_clips world settings idx idy cuts
    = map (fun ft => clip_duration world (fst ft) (snd ft))
          (spoken_parts world settings idx idy cuts).
Proof.
  induction cuts as [|text_cut cuts IH]; intros idy; [reflexivity|].
  cbn [part_clips spoken_parts].
  destruct (blank (process_text world settings text_cut)); [apply IH|].
  simpl. now rewrite IH.
Qed.

Lemma split_post_synthesized (e : TTSEngine) (text : string) (idx : unit_id) :
  synthesized (split_post world settings e text idx)
  = (synthesized e
     ++ spoken_parts world settings idx 0 (split_text_of (max_chars e) text))%list.
Proof.
  pose proof (split_loop_files idx
                (List.length (split_text_of (max_chars e) text))
                (split_text_of (max_chars e) text)
                (create_silence_mp3 settings e) [] 0%nat) as H.
  cbn zeta in H. destruct H as (H1 & _ & _). unfold split_post.
  destruct (split_loop world settings idx _ (create_silence_mp3 settings e)
              [] 0 (split_text_of (max_chars e) text)) as [e1 files].
  exact H1.
Qed.

End SplitFiles.

Lemma unlink_loop_all (world : collaborators) (files : list filename) :
  (forall f, In f files -> unlink_ok world f = true) ->
  unlink_loop world files = files.
Proof.
  induction files as [|f files IH]; intros H; [reflexivity|].
  simpl. rewrite (H f (or_introl eq_refl)). f_equal.
  apply IH. intros g Hg. apply H. now right.
Qed.

Lemma unlink_loop_stops (world : collaborators)
    (removed : list filename) (f : filename) (kept : list filename) :
  (forall g, In g removed -> unlink_ok world g = true) ->
  unlink_ok world f = false ->
  unlink_loop world (removed ++ f :: kept) = removed.
Proof.
  induction removed as [|g removed IH]; intros H Hf; simpl.
  - now rewrite Hf.
  - rewrite (H g (or_introl eq_refl)). f_equal.
    apply IH; [|exact Hf]. intros h Hh. apply H. now right.
Qed.

(** X14.  [split_post] synthesizes one part for every chunk whose processed
    text is not blank, in order, and then unlinks these part files in the
    same order and no other file (the silence file stays).  When every
    [os.unlink] succeeds, exactly the synthesized parts are removed; the
    first one that fails ends the deleting, so that this file and all the
    parts after it stay in the working directory, and [split_post] goes on
    without raising.  When no chunk is left to speak, nothing is
    synthesized, no concatenation is run (so no file is written for the
    unit) and the running total is as before. *)
Theorem split_post_unlinks_its_parts_until_one_fails
    (world : collaborators) (settings : settings_t)
    (e : TTSEngine) (text : string) (idx : unit_id) :
  let parts := spoken_parts world settings idx 0
                 (split_text_of (max_chars e) text) in
  let e' := split_post world settings e text idx in
  synthesized e' = (synthesized e ++ parts)%list
  /\ ((forall f, In f (map fst parts) -> unlink_ok world f = true) ->
      unlinked e' = (unlinked e ++ map fst parts)%list)
  /\ (forall removed f kept,
        map fst parts = (removed ++ f :: kept)%list ->
        (forall g, In g removed -> unlink_ok world g = true) ->
        unlink_ok world f = false ->
        unlinked e' = (unlinked e ++ removed)%list)
  /\ (forall f t, In (f, t) parts ->
        blank t = false /\ exists idy, f = FPart idx idy)
  /\ (parts = [] ->
      concat_log e' = concat_log e /\ length e' = length e
      /\ last_clip_length e' = last_clip_length e
      /\ unlinked e' = unlinked e).
Proof.
  intros parts e'.
  pose proof (split_loop_files world settings idx
                (List.length (split_text_of (max_chars e) text))
                (split_text_of (max_chars e) text)
                (create_silence_mp3 settings e) [] 0%nat) as H.
  cbn zeta in H. destruct H as (H1 & H2 & H3).
  assert (Hu : unlinked e'
               = (unlinked e ++ unlink_loop world (map fst parts))%list).
  { unfold e', split_post.
    destruct (split_loop world settings idx _ (create_silence_mp3 settings e)
                [] 0 (split_text_of (max_chars e) text)) as [e1 files].
    simpl in *. now rewrite H2, H3. }
  split; [|split; [|split; [|split]]].
  - unfold e', split_post.
    destruct (split_loop world settings idx _ (create_silence_mp3 settings e)
                [] 0 (split_text_of (max_chars e) text)) as [e1 files].
    exact H1.
  - intros Hall. rewrite Hu. now rewrite unlink_loop_all.
  - intros removed f kept Hparts Hremoved Hf. rewrite Hu, Hparts.
    now rewrite unlink_loop_stops.
  - apply spoken_parts_are_parts.
  - intros Hp. repeat split.
    + unfold e', split_post.
      rewrite (split_loop_nothing_spoken world settings idx _ _ _ _ _ Hp).
      reflexivity.
    + unfold e', split_post.
      rewrite (split_loop_nothing_spoken world settings idx _ _ _ _ _ Hp).
      reflexivity.
    + unfold e', split_post.
      rewrite (split_loop_nothing_spoken world settings idx _ _ _ _ _ Hp).
      reflexivity.
    + rewrite Hu. fold parts in Hp. rewrite Hp. simpl. apply app_nil_r.
Qed.

Lemma nth_seq_is_list (l : list Q) :
  map (fun i => nth i l 0) (seq 0 (List.length l)) = l.
Proof.
  induction l as [|a l IH]; [reflexivity|].
  simpl. f_equal. rewrite <- seq_shift, map_map. exact IH.
Qed.

Lemma counted_pos_all (l : list Q) :
  (forall d, In d l -> 0 < d) -> map counted l = l.
Proof.
  induction l as [|a l IH]; intros H; [reflexivity|]. simpl.
  rewrite IH by (intros d Hd; apply H; now right). f_equal.
  apply (counted_pos a a); [reflexivity|]. apply H. now left.
Qed.

(** X15.  The silence that ends the concatenated file of a split unit is
    not in the running total.  When every chunk is spoken and every part
    has a measured duration above 0, the files listed for the
    concatenation last as long as what [split_post] added to the total,
    plus the configured silence. *)
Theorem split_total_leaves_out_the_silence
    (world : collaborators) (settings : settings_t)
    (e : TTSEngine) (text : string) (idx : unit_id) :
  let cuts := split_text_of (max_chars e) text in
  let clips := part_clips world settings idx 0 cuts in
  let e' := split_post world settings e text idx in
  List.length clips = List.length cuts ->
  (forall d, In d clips -> 0 < d) ->
  concat_duration (fun idz => nth idz clips 0) (silence_duration settings)
    (list_txt idx (List.length cuts))
  == (length e' - length e) + silence_duration settings.
Proof.
  intros cuts clips e' Hall Hpos.
  destruct (split_post_advances world settings e text idx)
    as (_ & _ & _ & A & _).
  fold cuts in A. fold clips in A. fold e' in A.
  rewrite list_txt_duration, <- Hall, nth_seq_is_list, A.
  rewrite (counted_pos_all clips Hpos). ring.
Qed.

Lemma split_total_leaves_out_the_silence_witness :
  let e := init 10 comments_with_a_long_one 10 0 in
  let e' := split_post (plain_world durations_with_split) comment_mode e
              "It is. So it was." (UIdx 2) in
  length e' - length e == 7
  /\ concat_duration (fun idz => nth idz [3; 4] 0) (3 # 10)
       (list_txt (UIdx 2) 2)
     == 7 + (3 # 10).
Proof.
  intros e e'.
  assert (H1 : length e' - length e == 7) by reflexivity.
  split; [exact H1|]. rewrite <- H1.
  apply (split_total_leaves_out_the_silence
           (plain_world durations_with_split) comment_mode e
           "It is. So it was." (UIdx 2)).
  - reflexivity.
  - intros d [<-|[<-|[]]]; reflexivity.
Defined.

(** *** Story mode *)

Section Story.

Variable world : collaborators.
Variable settings : settings_t.

Lemma story_loop_spec (texts : list string) :
  forall e idx,
    let r := story_loop world settings e idx texts in
    snd r = Nat.pred (idx + List.length texts)
    /\ advances e (fst r) (story_clips world settings idx texts)
    /\ synthesized (fst r)
       = (synthesized e ++ story_files world settings idx texts)%list.
Proof.
  induction texts as [|text texts IH]; intros e idx;
    cbn [story_loop story_clips story_files].
  - simpl. rewrite Nat.add_0_r, app_nil_r.
    split; [reflexivity|]. split; [now apply advances_nil|reflexivity].
  - specialize (IH (call_tts world e (FPostN idx)
                      (process_text world settings text)) (S idx)).
    cbn zeta in *. destruct IH as (I1 & I2 & I3).
    split; [rewrite I1; simpl; f_equal; lia|]. split.
    + eapply advances_cons; [apply call_tts_advances|exact I2].
    + rewrite I3.
      destruct (call_tts_synthesized world e (FPostN idx)
                  (process_text world settings text)) as [K _].
      rewrite K, <- app_assoc. reflexivity.
Qed.

(** [run] up to the end of the title, when no comment body is empty. *)
Lemma run_starts_with_the_title (mc : nat) (doc : reddit_object_t) (ml lc : Q) :
  has_empty_body (comments doc) = false ->
  exists e0,
    add_periods (init mc doc ml lc) = (e0, Ok tt)
    /\ thread_title (reddit_object e0) = thread_title doc
    /\ thread_post (reddit_object e0) = thread_post doc
    /\ max_chars e0 = mc /\ max_length e0 = ml /\ length e0 = 0
    /\ synthesized e0 = [].
Proof.
  intros H. unfold add_periods.
  pose proof (add_periods_loop_outcome (comments doc)) as O. rewrite H in O.
  change (comments (reddit_object (init mc doc ml lc))) with (comments doc).
  destruct (add_periods_loop (comments doc)) as [cs r]. simpl in O. subst r.
  eexists. split; [reflexivity|]. repeat split.
Qed.

End Story.

(** X16.  Story mode, method 1: every element of the pre-split story is
    spoken, in order, after the title, without any test of the budget; the
    total is the title plus all of them, however long, the returned index
    is that of the last element, and no comment is spoken. *)
Theorem story_method_1_has_no_budget
    (world : collaborators) (settings : settings_t)
    (mc : nat) (doc : reddit_object_t) (ml lc : Q) (texts : list string) :
  storymode settings = true ->
  storymodemethod settings = 1%Z ->
  thread_post doc = PostList texts ->
  has_empty_body (comments doc) = false ->
  exists e' T,
    run world settings (init mc doc ml lc)
    = (e', Ok (T, Nat.pred (List.length texts)))
    /\ T == counted (title_clip world settings (thread_title doc))
            + Qsum (map counted (story_clips world settings 0 texts))
    /\ synthesized e'
       = (FTitle, process_text world settings (thread_title doc))
         :: story_files world settings 0 texts.
Proof.
  intros Hs Hm Hp He.
  destruct (run_starts_with_the_title mc doc ml lc He)
    as (e0 & A & Ht & Hpost & _ & _ & Hl & Hsyn).
  unfold run, run_traced. rewrite A, Hs, Hm. cbn [Z.eqb Pos.eqb].
  destruct (call_tts_advances world e0 FTitle
              (process_text world settings (thread_title (reddit_object e0))))
    as (B1 & B2 & B3 & B4 & B5).
  destruct (call_tts_synthesized world e0 FTitle
              (process_text world settings (thread_title (reddit_object e0))))
    as [B6 _].
  set (e1 := call_tts world e0 FTitle
               (process_text world settings (thread_title (reddit_object e0)))) in *.
  rewrite B3, Hpost, Hp.
  pose proof (story_loop_spec world settings texts e1 0) as S.
  cbn zeta in S. destruct S as (S1 & (_ & _ & _ & S2 & _) & S3).
  destruct (story_loop world settings e1 0 texts) as [e2 j]. simpl in *.
  subst j. eexists. eexists. split; [reflexivity|]. split.
  - rewrite S2, B4, Hl, Ht. unfold title_clip. ring.
  - rewrite S3, B6, Hsyn, Ht. reflexivity.
Qed.

Lemma story_method_1_witness :
  exists e' T,
    run (plain_world durations_story) (story_mode 1)
        (init 5000 (story "A story" (PostList ["One."; "Two."; "Three."])) 50 0)
    = (e', Ok (T, 2%nat))
    /\ T == 92.
Proof.
  destruct (story_method_1_has_no_budget (plain_world durations_story)
              (story_mode 1) 5000
              (story "A story" (PostList ["One."; "Two."; "Three."])) 50 0
              ["One."; "Two."; "Three."] eq_refl eq_refl eq_refl eq_refl)
    as (e' & T & R & HT & _).
  exists e', T. split; [exact R|]. rewrite HT. reflexivity.
Defined.

(** X17.  Story mode, method 0: after the title the whole story body is
    spoken, as one clip when it has at most [max_chars] characters and
    through [split_post] otherwise; the returned index is 0 and no comment
    is spoken, whatever the comments are. *)
Theorem story_method_0_speaks_the_body_only
    (world : collaborators) (settings : settings_t)
    (mc : nat) (doc : reddit_object_t) (ml lc : Q) (text : string) :
  storymode settings = true ->
  storymodemethod settings = 0%Z ->
  thread_post doc = PostText text ->
  has_empty_body (comments doc) = false ->
  exists e' T,
    run world settings (init mc doc ml lc) = (e', Ok (T, 0%nat))
    /\ synthesized e'
       = (FTitle, process_text world settings (thread_title doc))
         :: (if Nat.ltb mc (String.length text)
             then spoken_parts world settings UPost 0 (split_text_of mc text)
             else [(FWhole UPost, process_text world settings text)])
    /\ T == counted (title_clip world settings (thread_title doc))
            + Qsum (map counted
                      (if Nat.ltb mc (String.length text)
                       then part_clips world settings UPost 0
                              (split_text_of mc text)
                       else [clip_duration world (FWhole UPost)
                               (process_text world settings text)])).
Proof.
  intros Hs Hm Hp He.
  destruct (run_starts_with_the_title mc doc ml lc He)
    as (e0 & A & Ht & Hpost & Hmc & _ & Hl & Hsyn).
  unfold run, run_traced. rewrite A, Hs, Hm. cbn [Z.eqb].
  destruct (call_tts_advances world e0 FTitle
              (process_text world settings (thread_title (reddit_object e0))))
    as (B1 & B2 & B3 & B4 & B5).
  destruct (call_tts_synthesized world e0 FTitle
              (process_text world settings (thread_title (reddit_object e0))))
    as [B6 _].
  set (e1 := call_tts world e0 FTitle
               (process_text world settings (thread_title (reddit_object e0)))) in *.
  rewrite B3, Hpost, Hp, B2, Hmc.
  eexists. eexists. split; [reflexivity|].
  destruct (Nat.ltb mc (String.length text)).
  - destruct (split_post_advances world settings e1 text UPost)
      as (_ & _ & _ & C & _).
    pose proof (split_post_synthesized world settings e1 text UPost) as D.
    rewrite B2, Hmc in C, D. split.
    + rewrite D, B6, Hsyn, Ht. reflexivity.
    + rewrite C, B4, Hl, Ht. unfold title_clip. simpl. ring.
  - destruct (call_tts_advances world e1 (FWhole UPost)
                (process_text world settings text)) as (_ & _ & _ & C & _).
    destruct (call_tts_synthesized world e1 (FWhole UPost)
                (process_text world settings text)) as [D _].
    split.
    + rewrite D, B6, Hsyn, Ht. reflexivity.
    + rewrite C, B4, Hl, Ht. unfold title_clip. simpl. ring.
Qed.

Lemma story_method_0_witness :
  exists e' T,
    run (plain_world durations_story) (story_mode 0)
        (init 5000 (story "A story" (PostText "Once upon a time.")) 50 0)
    = (e', Ok (T, 0%nat))
    /\ T == 62.
Proof.
  destruct (story_method_0_speaks_the_body_only (plain_world durations_story)
              (story_mode 0) 5000
              (story "A story" (PostText "Once upon a time.")) 50 0
              "Once upon a time." eq_refl eq_refl eq_refl eq_refl)
    as (e' & T & R & _ & HT).
  exists e', T. split; [exact R|]. rewrite HT. reflexivity.
Defined.

(** X18.  Story mode with a method other than 0 and 1 is not an error:
    [run] speaks the title only and returns its counted duration with the
    index 0; neither the story nor any comment is spoken. *)
Theorem story_with_another_method_speaks_the_title_only
    (world : collaborators) (settings : settings_t)
    (mc : nat) (doc : reddit_object_t) (ml lc : Q) :
  storymode settings = true ->
  storymodemethod settings <> 0%Z ->
  storymodemethod settings <> 1%Z ->
  has_empty_body (comments doc) = false ->
  exists e' T,
    run world settings (init mc doc ml lc) = (e', Ok (T, 0%nat))
    /\ synthesized e'
       = [(FTitle, process_text world settings (thread_title doc))]
    /\ T == counted (title_clip world settings (thread_title doc)).
Proof.
  intros Hs H0 H1 He.
  destruct (run_starts_with_the_title mc doc ml lc He)
    as (e0 & A & Ht & _ & _ & _ & Hl & Hsyn).
  unfold run, run_traced. rewrite A, Hs.
  apply Z.eqb_neq in H0, H1. rewrite H0, H1.
  destruct (call_tts_advances world e0 FTitle
              (process_text world settings (thread_title (reddit_object e0))))
    as (_ & _ & _ & B4 & _).
  destruct (call_tts_synthesized world e0 FTitle
              (process_text world settings (thread_title (reddit_object e0))))
    as [B6 _].
  eexists. eexists. split; [reflexivity|]. split.
  - rewrite B6, Hsyn, Ht. reflexivity.
  - rewrite B4, Hl, Ht. unfold title_clip. simpl. ring.
Qed.

Lemma story_with_another_method_witness :
  exists e' T,
    run (plain_world durations_story) (story_mode 2)
        (init 5000 (story "A story" (PostText "Once upon a time.")) 50 0)
    = (e', Ok (T, 0%nat))
    /\ T == 2.
Proof.
  destruct (story_with_another_method_speaks_the_title_only
              (plain_world durations_story) (story_mode 2) 5000
              (story "A story" (PostText "Once upon a time.")) 50 0
              eq_refl ltac:(discriminate) ltac:(discriminate) eq_refl)
    as (e' & T & R & _ & HT).
  exists e', T. split; [exact R|]. rewrite HT. reflexivity.
Defined.

(** *** The result of [run] in the comment mode *)

Lemma counted_nonneg (d : Q) : 0 <= counted d.
Proof.
  unfold counted. destruct (Qlt_bool 0 d) eqn:E.
  - apply Qlt_le_weak. now apply Qlt_bool_iff.
  - apply Qle_refl.
Qed.

Lemma Qsum_nonneg (l : list Q) : (forall x, In x l -> 0 <= x) -> 0 <= Qsum l.
Proof.
  induction l as [|a l IH]; intros H; simpl; [apply Qle_refl|].
  assert (0 <= a) by (apply H; now left).
  assert (0 <= Qsum l) by (apply IH; intros x Hx; apply H; now right).
  lra.
Qed.

(** The last of non-negative numbers is at most their sum. *)
Lemma last_le_sum (l : list Q) :
  forall d, 0 <= d -> (forall x, In x l -> 0 <= x) -> last l d <= d + Qsum l.
Proof.
  induction l as [|a l IH]; intros d Hd H.
  - simpl. lra.
  - rewrite last_cons_default.
    assert (Ha : 0 <= a) by (apply H; now left).
    assert (Hl : forall x, In x l -> 0 <= x) by (intros x Hx; apply H; now right).
    pose proof (IH a Ha Hl). simpl. lra.
Qed.

Lemma counted_all_nonneg (l : list Q) : forall x, In x (map counted l) -> 0 <= x.
Proof.
  intros x H. apply in_map_iff in H. destruct H as [d [<- _]].
  apply counted_nonneg.
Qed.

(** X19.  In the comment mode the index that [run] returns is always the
    index of a comment (or 0 when there is none) and the total is never
    negative.  After a rollback the index is at least 1 and at least one
    comment follows it: the first two comments are spoken whatever the
    budget, and a rollback never happens at them. *)
Theorem run_returns_an_index_in_range
    (world : collaborators) (settings : settings_t)
    (mc : nat) (doc : reddit_object_t) (ml lc : Q)
    (e' : TTSEngine) (T : Q) (j : nat) (x : loop_exit) :
  storymode settings = false ->
  run_traced world settings (init mc doc ml lc) = (e', Ok (T, j, x)) ->
  let n := List.length (comments (reddit_object e')) in
  0 <= T
  /\ (j <= Nat.pred n)%nat
  /\ n = List.length (comments doc)
  /\ (x = Exhausted -> j = Nat.pred n)
  /\ (x = Broke -> (1 <= j)%nat /\ (S j < n)%nat).
Proof.
  intros Hs H n.
  pose proof (run_non_story_spec _ _ _ _ _ _ _ _ _ _ Hs H) as S.
  assert (Hn : n = List.length (comments doc)).
  { unfold n. clear S. unfold run_traced, add_periods in H.
    change (comments (reddit_object (init mc doc ml lc)))
      with (comments doc) in H.
    pose proof (add_periods_loop_outcome (comments doc)) as O.
    destruct (has_empty_body (comments doc)) eqn:He.
    - destruct (add_periods_loop (comments doc)) as [cs r]. simpl in O.
      subst r. discriminate.
    - rewrite (TextFacts.add_periods_loop_all (comments doc) He) in H.
      rewrite Hs in H.
      match type of H with
      | context [comments_loop world settings ?e1 0 ?cs] =>
          destruct (comments_loop world settings e1 0 cs) as [[e2 j2] x2] eqn:L;
          pose proof (comments_loop_spec world settings _ _ _ _ _ _ L)
            as (_ & R & _)
      end.
      injection H as <- _ _ _. rewrite R.
      destruct (call_tts_advances world
                  (with_comments (init mc doc ml lc)
                     (map normalize_comment (comments doc))) FTitle
                  (process_text world settings
                     (thread_title (reddit_object
                        (with_comments (init mc doc ml lc)
                           (map normalize_comment (comments doc)))))))
        as (_ & _ & R2 & _).
      rewrite R2. simpl. apply length_map. }
  set (title := counted (title_clip world settings (thread_title doc))) in *.
  assert (Ht : 0 <= title) by apply counted_nonneg.
  destruct x.
  - destruct S as [-> HT]. fold n.
    split; [|repeat split; auto; discriminate].
    rewrite HT.
    pose proof (Qsum_nonneg _ (counted_all_nonneg
                  (clips_of world settings mc 0 (comments (reddit_object e'))))).
    lra.
  - destruct S as (pre & c & post & E & Hlen & -> & Hlt & Hlast & HT).
    assert (Hn' : n = (List.length pre + S (List.length post))%nat).
    { unfold n. rewrite E, length_app. reflexivity. }
    split; [|repeat split; try lia; discriminate].
    rewrite HT, Hlast.
    pose proof (last_le_sum _ title Ht (counted_all_nonneg
                  (clips_of world settings mc 0 pre))).
    lra.
Qed.

Lemma run_returns_an_index_in_range_witness :
  let r := run_traced (plain_world (durations_5_5_5_40 3)) comment_mode
             (init 5000 four_comments 10 0) in
  snd r = Ok (8, 1%nat, Broke) /\ 0 <= 8 /\ (1 <= 1)%nat /\ (2 < 4)%nat.
Proof.
  intros r.
  assert (Hr : run_traced (plain_world (durations_5_5_5_40 3)) comment_mode
                 (init 5000 four_comments 10 0)
               = (fst r, Ok (8, 1%nat, Broke))) by (vm_compute; reflexivity).
  split; [vm_compute; reflexivity|].
  destruct (run_returns_an_index_in_range
              (plain_world (durations_5_5_5_40 3)) comment_mode
              5000 four_comments 10 0 (fst r) 8 1 Broke eq_refl Hr)
    as (H0 & _ & _ & _ & H).
  destruct (H eq_refl) as [H1 H2].
  split; [exact H0|]. split; [exact H1|]. exact H2.
Defined.

End TTSMore.

(** ** The duration of a clip *)

Module ClipFacts.

Import Py TTS Notions Paths MoreNotions TTSFacts.
Open Scope string_scope.
Open Scope Q_scope.

Lemma count_words_leading_blanks (gap s : string) :
  all_space gap = true ->
  count_words false (gap ++ s) = count_words false s.
Proof.
  induction gap as [|c gap IH]; intros H; [reflexivity|].
  simpl in H. apply andb_prop in H. destruct H as [H1 H2].
  simpl. rewrite H1. now apply IH.
Qed.

Lemma count_words_after_a_gap (in_word : bool) (gap s : string) :
  all_space gap = true -> gap <> EmptyString ->
  count_words in_word (gap ++ s) = count_words false s.
Proof.
  destruct gap as [|c gap]; intros H Hne; [congruence|].
  simpl in H. apply andb_prop in H. destruct H as [H1 H2].
  simpl. rewrite H1. now apply count_words_leading_blanks.
Qed.

Lemma count_words_blanks_only (in_word : bool) (gap : string) :
  all_space gap = true -> count_words in_word gap = 0%nat.
Proof.
  revert in_word. induction gap as [|c gap IH]; intros in_word H;
    [reflexivity|].
  simpl in H. apply andb_prop in H. destruct H as [H1 H2].
  simpl. rewrite H1. now apply IH.
Qed.

Lemma count_words_inside_a_word (w s : string) :
  string_forall (fun c => negb (is_space c)) w = true ->
  count_words true (w ++ s) = count_words true s.
Proof.
  induction w as [|c w IH]; intros H; [reflexivity|].
  simpl in H. apply andb_prop in H. destruct H as [H1 H2].
  apply negb_true_iff in H1. simpl. rewrite H1. now apply IH.
Qed.

Lemma count_words_at_a_word (w s : string) :
  is_word_text w = true ->
  count_words false (w ++ s) = S (count_words true s).
Proof.
  destruct w as [|c w]; intros H; [discriminate|].
  simpl in H. apply andb_prop in H. destruct H as [H1 H2].
  apply negb_true_iff in H1. simpl. rewrite H1. f_equal.
  now apply count_words_inside_a_word.
Qed.

Lemma append_empty_r (s : string) : s ++ EmptyString = s.
Proof. induction s as [|c s IH]; simpl; [reflexivity|now rewrite IH]. Qed.

(** [len(text.split())] is the number of the words of the text. *)
Lemma word_count_join_words (lead : string) (words : list (string * string)) :
  all_space lead = true -> well_spaced words = true ->
  word_count (lead ++ join_words words) = List.length words.
Proof.
  intros Hl Hw. unfold word_count. rewrite (count_words_leading_blanks _ _ Hl).
  clear lead Hl. induction words as [|[w gap] words IH]; [reflexivity|].
  cbn [well_spaced] in Hw. apply andb_prop in Hw. destruct Hw as [Hw H3].
  apply andb_prop in Hw. destruct Hw as [H1 H2].
  cbn [join_words List.length]. rewrite (count_words_at_a_word _ _ H1).
  f_equal. destruct words as [|p words].
  - cbn [join_words]. rewrite append_empty_r.
    now apply count_words_blanks_only.
  - apply andb_prop in H3. destruct H3 as [H3 H4].
    rewrite count_words_after_a_gap; [now apply IH|exact H2|].
    intros ->. discriminate.
Qed.

(** Every text is made of leading blanks and of words, each with the
    blanks after it. *)
Lemma text_is_words (text : string) :
  exists lead words,
    text = lead ++ join_words words
    /\ all_space lead = true /\ well_spaced words = true.
Proof.
  induction text as [|c text (lead & words & E & Hl & Hw)].
  - exists EmptyString, []. repeat split.
  - destruct (is_space c) eqn:Hc.
    + exists (String c lead), words. split; [simpl; now rewrite <- E|].
      split; [simpl; now rewrite Hc, Hl|exact Hw].
    + destruct lead as [|b lead].
      * destruct words as [|[w gap] words].
        -- exists EmptyString, [(String c EmptyString, EmptyString)].
           split; [simpl in *; now rewrite E|]. split; [reflexivity|].
           simpl. now rewrite Hc.
        -- exists EmptyString, ((String c w, gap) :: words).
           split; [simpl in *; now rewrite E|]. split; [reflexivity|].
           cbn [well_spaced] in *.
           apply andb_prop in Hw. destruct Hw as [Hw H3].
           apply andb_prop in Hw. destruct Hw as [H1 H2].
           rewrite H2, H3. simpl. rewrite Hc. simpl.
           destruct w as [|a w]; [discriminate|]. unfold is_word_text in H1.
           now rewrite H1.
      * exists EmptyString, ((String c EmptyString, String b lead) :: words).
        split; [simpl in *; now rewrite E|]. split; [reflexivity|].
        cbn [well_spaced]. rewrite Hl, Hw. simpl. rewrite Hc.
        destruct words; reflexivity.
Qed.

Lemma call_tts_records (world : collaborators) (e : TTSEngine)
    (file : filename) (text : string) :
  records_clip e (call_tts world e file text) file text
    (clip_duration world file text).
Proof.
  unfold records_clip, call_tts, update_durations.
  destruct (Qlt_bool 0 (clip_duration world file text)) eqn:E; simpl.
  - split; [reflexivity|]. split; [reflexivity|].
    split; [intros _; split; reflexivity|].
    intros H. apply Qlt_bool_iff in E. exfalso. exact (Qlt_not_le _ _ E H).
  - split; [reflexivity|]. split; [reflexivity|].
    split; [|intros _; split; reflexivity].
    intros H. apply Qlt_bool_iff in H. congruence.
Qed.

(** C6.  The duration of the clip is what ffprobe reports; when ffprobe
    fails, what MoviePy reports; when both fail, the estimate: the number
    of words of the text, divided by 150 and multiplied by 60, and 1 second
    when that is not more, where the words are the runs of characters
    between the blanks of the text.  Whatever the tier, the speech module
    has been called once for the text, a duration above 0 is added to the
    running total and becomes the length of the last clip, and any other
    (0 is one) leaves the total as it was and sets the length of the last
    clip to 0; the estimate is at least 1 second, so it is always added. *)
Theorem call_tts_measures_and_updates
    (world : collaborators) (e : TTSEngine) (file : filename) (text : string) :
  let e' := call_tts world e file text in
  (forall d, ffprobe world file text = Some d ->
     records_clip e e' file text d)
  /\ (forall d, ffprobe world file text = None ->
        moviepy world file text = Some d ->
        records_clip e e' file text d)
  /\ (ffprobe world file text = None -> moviepy world file text = None ->
      forall lead words,
        text = lead ++ join_words words ->
        all_space lead = true -> well_spaced words = true ->
        let n := inject_Z (Z.of_nat (List.length words)) in
        exists d,
          records_clip e e' file text d
          /\ (n / 150 * 60 <= 1 -> d == 1)
          /\ (1 < n / 150 * 60 -> d == n / 150 * 60)
          /\ 1 <= d
          /\ length e' = length e + d /\ last_clip_length e' = d)
  /\ (exists lead words,
        text = lead ++ join_words words
        /\ all_space lead = true /\ well_spaced words = true).
Proof.
  intros e'. pose proof (call_tts_records world e file text) as R.
  fold e' in R. unfold clip_duration in R.
  split; [|split; [|split]].
  - intros d H. now rewrite H in R.
  - intros d H1 H2. now rewrite H1, H2 in R.
  - intros H1 H2 lead words E Hl Hw n. rewrite H1, H2 in R.
    exists (estimate text). split; [exact R|].
    assert (He : estimated_duration text == n / 150 * 60).
    { unfold estimated_duration, n.
      rewrite E, (word_count_join_words _ _ Hl Hw). reflexivity. }
    pose proof (estimate_floor text) as Hf.
    split; [|split; [|split; [exact Hf|]]].
    + intros H. unfold estimate.
      destruct (Qle_bool (estimated_duration text) 1) eqn:G; [reflexivity|].
      rewrite <- He in H. apply Qle_bool_iff in H. congruence.
    + intros H. unfold estimate.
      destruct (Qle_bool (estimated_duration text) 1) eqn:G; [|exact He].
      apply Qle_bool_iff in G. rewrite He in G.
      exfalso. exact (Qlt_not_le _ _ H G).
    + destruct R as (_ & _ & R & _). apply R.
      apply Qlt_le_trans with (y := 1); [reflexivity|exact Hf].
  - apply text_is_words.
Qed.

Lemma call_tts_measures_and_updates_witness :
  let world := probing_world (7 # 2) 0 in
  let e := init 5000 document_with_an_empty_comment 50 9 in
  let title := call_tts world e FTitle "A question" in
  let first := call_tts world title (FWhole (UIdx 0)) "An answer." in
  let second := call_tts world first (FWhole (UIdx 1))
                  "one two  three four five six" in
  let third := call_tts world second (FWhole (UIdx 2)) " one two " in
  (length title = 0 + (7 # 2) /\ last_clip_length title = 7 # 2)
  /\ (length first = length title /\ last_clip_length first = 0)
  /\ (exists d, d == 6 / 150 * 60
                /\ length second = length first + d
                /\ last_clip_length second = d)
  /\ (exists d, d == 1
                /\ length third = length second + d
                /\ last_clip_length third = d).
Proof.
  intros world e title first second third.
  split; [|split; [|split]].
  - destruct (call_tts_measures_and_updates world e FTitle "A question")
      as (H & _).
    destruct (H (7 # 2) eq_refl) as (_ & _ & H1 & _).
    apply H1. reflexivity.
  - destruct (call_tts_measures_and_updates world title (FWhole (UIdx 0))
                "An answer.") as (_ & H & _).
    destruct (H 0 eq_refl eq_refl) as (_ & _ & _ & H1).
    apply H1. discriminate.
  - destruct (call_tts_measures_and_updates world first (FWhole (UIdx 1))
                "one two  three four five six") as (_ & _ & H & _).
    destruct (H eq_refl eq_refl EmptyString
                [("one", " "); ("two", "  "); ("three", " "); ("four", " ");
                 ("five", " "); ("six", EmptyString)]
                eq_refl eq_refl eq_refl)
      as (d & _ & _ & H2 & _ & H3 & H4).
    exists d. split; [apply H2; reflexivity|]. split; assumption.
  - destruct (call_tts_measures_and_updates world second (FWhole (UIdx 2))
                " one two ") as (_ & _ & H & _).
    destruct (H eq_refl eq_refl " " [("one", " "); ("two", " ")]
                eq_refl eq_refl eq_refl)
      as (d & _ & H1 & _ & _ & H3 & H4).
    exists d. split; [apply H1; discriminate|]. split; assumption.
Defined.

End ClipFacts.

(** ** The rollback of the comment loop *)

Module RollbackFacts.

Import Py TTS Notions MoreNotions TTSFacts TTSMore.
Open Scope string_scope.

Section Files.

Variable world : collaborators.
Variable settings : settings_t.



End Files.





End RollbackFacts.
